(** * skt/executable.py: pipeline driver, stage wrapper and state persistence

    A shallow embedding of [skt/executable.py] (Python 2).  The module keeps
    three pieces of mutable state: the global [retcode], the configuration
    dictionary [cfg] that every stage receives by reference, and the files
    the stages touch.  They are threaded explicitly through a state-and-fault
    monad; calls into the collaborators ([KernelTree], [KernelBuilder], the
    publisher, the runner, the reporter) are answered by an oracle record. *)

From Stdlib Require Import ZArith String Ascii List Bool Lia.
From stdpp Require Import base option gmap strings list fin_maps pretty.

Set Warnings "-register-all".
Open Scope Z_scope.
Open Scope string_scope.

(** ** Faults *)

(** The exception classes the module names or can meet.  In Python 2
    [SystemExit] and [KeyboardInterrupt] derive from [BaseException]
    directly; every other class below derives from [Exception]. *)
Inductive exn_class : Type :=
| Exception
| TypeError
| AttributeError
| IndexError
| ValueError
| OSError
| IOError
| CalledProcessError
| CommandTimeoutError
| ParsingError
| PatchApplicationError
| NoOptionError
| KeyError
| UnboundLocalError
| SystemExit
| KeyboardInterrupt.

Record exn : Type := Exn { exn_cls : exn_class; exn_msg : string }.

(** [isinstance(e, Exception)]: what [except Exception] catches. *)
Definition is_Exception (e : exn) : bool :=
  match exn_cls e with
  | SystemExit | KeyboardInterrupt => false
  | _ => true
  end.

Definition is_OSError (e : exn) : bool :=
  match exn_cls e with OSError => true | _ => false end.

Definition is_PatchApplicationError (e : exn) : bool :=
  match exn_cls e with PatchApplicationError => true | _ => false end.

(** The tuple of [cmd_build]'s first [except] clause. *)
Definition is_build_failure (e : exn) : bool :=
  match exn_cls e with
  | CommandTimeoutError | CalledProcessError | ParsingError | IOError => true
  | _ => false
  end.

Inductive result (A : Type) : Type :=
| Ret (a : A)
| Raise (e : exn).
Arguments Ret {A} a.
Arguments Raise {A} e.

(** ** Python values held in the configuration dictionary *)

Inductive value : Type :=
| VNone
| VBool (b : bool)
| VInt (z : Z)
| VStr (s : string)
| VList (l : list value)
| VSet (s : gset string)
| VDict (d : list (string * value))
| VObj (repr : string).

(** Python truth value, as tested by [if x] and [not x]. *)
Definition truthy (v : value) : bool :=
  match v with
  | VNone => false
  | VBool b => b
  | VInt z => negb (Z.eqb z 0)
  | VStr s => negb (String.eqb s "")
  | VList l => match l with [] => false | _ => true end
  | VSet s => negb (bool_decide (s = ∅))
  | VDict d => match d with [] => false | _ => true end
  | VObj _ => true
  end.

(** [str(v)] and [%s] formatting.  Scalars are rendered exactly; the text of
    a container is left to [repr_of], a parameter of the development. *)
Definition py_str (repr_of : value -> string) (v : value) : string :=
  match v with
  | VNone => "None"
  | VBool true => "True"
  | VBool false => "False"
  | VInt z => pretty z
  | VStr s => s
  | _ => repr_of v
  end.

(** ** Outcome codes *)

(** Modelled from the spec: [skt.misc] is not part of the sources at hand;
    the specification gives exit code 0 for success, nonzero for FAIL and
    2 or more for ERROR, and the module compares [retcode] with these
    constants as integers. *)
Definition SKT_SUCCESS : Z := 0.
Definition SKT_FAIL : Z := 1.
Definition SKT_ERROR : Z := 2.

(** ** The state-and-fault monad *)

(** A computation over a state [S] ends with a value or with a raised fault;
    the state mutated up to that point is kept in both cases, as a Python
    [try] block sees it. *)
Definition M (S A : Type) : Type := S -> result A * S.

Definition ret {S A : Type} (a : A) : M S A := fun s => (Ret a, s).

Definition raise {S A : Type} (e : exn) : M S A := fun s => (Raise e, s).

Definition bind {S A B : Type} (m : M S A) (f : A -> M S B) : M S B :=
  fun s =>
    match m s with
    | (Ret a, s') => f a s'
    | (Raise e, s') => (Raise e, s')
    end.

#[global] Instance M_ret {S : Type} : MRet (M S) := fun A a => ret a.
#[global] Instance M_bind {S : Type} : MBind (M S) := fun A B f m => bind m f.

(** [try: m except <classes in h>: handler].  A fault for which [h] has no
    clause keeps propagating. *)
Definition try_except {S A : Type} (m : M S A) (h : exn -> option (M S A))
  : M S A :=
  fun s =>
    match m s with
    | (Ret a, s') => (Ret a, s')
    | (Raise e, s') =>
        match h e with
        | Some k => k s'
        | None => (Raise e, s')
        end
    end.

Definition gets {S A : Type} (f : S -> A) : M S A := fun s => (Ret (f s), s).

Definition modify {S : Type} (f : S -> S) : M S unit := fun s => (Ret tt, f s).

(** The answer of a collaborator, which the callee either returns or raises. *)
Definition call {S A : Type} (r : result A) : M S A := fun s => (r, s).

(** A stage body with local variables [L] runs over the pair of its frame and
    the world; [lift] runs a world action inside such a body. *)
Definition lift {L W A : Type} (m : M W A) : M (L * W) A :=
  fun s =>
    match m (snd s) with
    | (r, w') => (r, (fst s, w'))
    end.

Definition locals {L W : Type} : M (L * W) L := gets fst.

Definition set_locals {L W : Type} (f : L -> L) : M (L * W) unit :=
  modify (fun s => (f (fst s), snd s)).

(** Run a body from the initial frame [l0] and drop the frame at the end. *)
Definition with_frame {L W A : Type} (l0 : L) (m : M (L * W) A) : M W A :=
  fun w =>
    match m (l0, w) with
    | (r, s') => (r, snd s')
    end.

(** What a block of statements leaves behind: it falls through to the next
    statement, or a [return] inside it ended the function. *)
Inductive flow : Type :=
| Next
| Return.

(** ** Strings *)

Definition lower_ascii (c : ascii) : ascii :=
  let n := N_of_ascii c in
  if ((65 <=? n) && (n <=? 90))%N then ascii_of_N (n + 32) else c.

(** [str.lower], which is [ConfigParser.optionxform]. *)
Fixpoint optionxform (s : string) : string :=
  match s with
  | EmptyString => EmptyString
  | String c r => String (lower_ascii c) (optionxform r)
  end.

(** [s.startswith(p)] *)
Definition startswith (p s : string) : bool := String.prefix p s.

(** [p in s] *)
Definition contains (p s : string) : bool :=
  match String.index 0 p s with
  | Some _ => true
  | None => false
  end.

Fixpoint lstrip (s : string) : string :=
  match s with
  | EmptyString => EmptyString
  | String c r => if Ascii.is_space c then lstrip r else s
  end.

(** [s.strip()] *)
Definition strip (s : string) : string :=
  String.rev (lstrip (String.rev (lstrip s))).

(** ['%02d' % n] *)
Definition fmt_02d (n : nat) : string :=
  if (n <? 10)%nat then "0" ++ pretty n else pretty n.

(** [s[:n]] *)
Definition take_str (n : nat) (s : string) : string := String.substring 0 n s.

(** [s[n:]] *)
Fixpoint drop_str (n : nat) (s : string) : string :=
  match n, s with
  | O, _ => s
  | S _, EmptyString => EmptyString
  | S n', String _ r => drop_str n' r
  end.

Definition newline : string := String (ascii_of_nat 10) EmptyString.

(** ['\n'.join(l)] *)
Fixpoint join_lines (l : list string) : string :=
  match l with
  | [] => ""
  | [x] => x
  | x :: r => x ++ newline ++ join_lines r
  end.

(** ** The rc document *)

(** A [ConfigParser] keeps its sections, and the options of a section, in
    insertion order (ordered dictionaries).  In memory an option may hold any
    Python value ([set] does not convert); on disk every value is text.  The
    [DEFAULT] section and [%(name)s] interpolation are outside the model. *)
Definition document (V : Type) : Type := list (string * list (string * V)).

Definition has_section {V : Type} (sec : string) (d : document V) : bool :=
  existsb (fun p => String.eqb (fst p) sec) d.

(** [config.add_section(sec)] for a section that is not there yet. *)
Definition add_section {V : Type} (sec : string) (d : document V)
  : document V :=
  (d ++ [(sec, [])])%list.

(** Assignment into an ordered dictionary: a known key keeps its place, a new
    one goes last. *)
Fixpoint odict_set {V : Type} (k : string) (v : V) (l : list (string * V))
  : list (string * V) :=
  match l with
  | [] => [(k, v)]
  | (k', v') :: r =>
      if String.eqb k' k then (k, v) :: r else (k', v') :: odict_set k v r
  end.

Fixpoint odict_get {V : Type} (k : string) (l : list (string * V))
  : option V :=
  match l with
  | [] => None
  | (k', v') :: r => if String.eqb k' k then Some v' else odict_get k r
  end.

(** [config.set(sec, opt, v)] on an existing section. *)
Fixpoint config_set {V : Type} (sec opt : string) (v : V) (d : document V)
  : document V :=
  match d with
  | [] => []
  | (s, opts) :: r =>
      if String.eqb s sec
      then (s, odict_set (optionxform opt) v opts) :: r
      else (s, opts) :: config_set sec opt v r
  end.




(** [config.remove_section(sec)] *)
Definition remove_section {V : Type} (sec : string) (d : document V)
  : document V :=
  List.filter (fun p => negb (String.eqb (fst p) sec)) d.


(** ** The world the module acts on *)

(** A [junit_xml.TestCase]: [add_error_info] and [add_failure_info] each
    store their message, the last call winning. *)
Record testcase : Type := TestCase {
  tc_name : string;
  tc_classname : string;
  tc_error : option string;
  tc_failure : option string;
  tc_stdout : string;
  tc_elapsed : Z
}.

(** Ghost events, in the order they happen: a function body is entered, a
    message is logged, the global [retcode] is assigned, a file of a
    directory is written. *)
Inductive event : Type :=
| EEnter (func : string)
| ELog (level : string) (msg : string)
| ESetRetcode (z : Z)
| EWrite (path : string * string) (content : string).

(** - [retcode]: the module global;
    - [cfg]: the configuration dictionary, shared by every stage; its two
      private entries ['_parser'] and ['_testcases'] are the fields [parser]
      and [testcases];
    - [rcfiles]: rc documents on disk, by path;
    - [dirs]: existing directories, by path, each with its regular files
      (name to content); the path [skt.join_with_slash(d, n)] is the file
      [n] of directory [d];
    - [files]: other regular files (archives, configuration snapshots);
    - [ticks]: how many times the clock has been read. *)
Record world : Type := World {
  retcode : Z;
  cfg : gmap string value;
  parser : document value;
  testcases : list testcase;
  rcfiles : gmap string (document string);
  dirs : gmap string (gmap string string);
  files : gset string;
  trace : list event;
  ticks : nat
}.

Definition with_retcode (z : Z) (w : world) : world :=
  World z (cfg w) (parser w) (testcases w) (rcfiles w) (dirs w) (files w)
        (trace w) (ticks w).

Definition with_cfg (c : gmap string value) (w : world) : world :=
  World (retcode w) c (parser w) (testcases w) (rcfiles w) (dirs w) (files w)
        (trace w) (ticks w).

Definition with_parser (p : document value) (w : world) : world :=
  World (retcode w) (cfg w) p (testcases w) (rcfiles w) (dirs w) (files w)
        (trace w) (ticks w).

Definition with_testcases (t : list testcase) (w : world) : world :=
  World (retcode w) (cfg w) (parser w) t (rcfiles w) (dirs w) (files w)
        (trace w) (ticks w).

Definition with_rcfiles (r : gmap string (document string)) (w : world)
  : world :=
  World (retcode w) (cfg w) (parser w) (testcases w) r (dirs w) (files w)
        (trace w) (ticks w).

Definition with_dirs (d : gmap string (gmap string string)) (w : world)
  : world :=
  World (retcode w) (cfg w) (parser w) (testcases w) (rcfiles w) d (files w)
        (trace w) (ticks w).

Definition with_files (f : gset string) (w : world) : world :=
  World (retcode w) (cfg w) (parser w) (testcases w) (rcfiles w) (dirs w) f
        (trace w) (ticks w).

Definition with_trace (t : list event) (w : world) : world :=
  World (retcode w) (cfg w) (parser w) (testcases w) (rcfiles w) (dirs w)
        (files w) t (ticks w).

Definition with_ticks (n : nat) (w : world) : world :=
  World (retcode w) (cfg w) (parser w) (testcases w) (rcfiles w) (dirs w)
        (files w) (trace w) n.

(** [cfg.get(k)] as a pure reading of a dictionary. *)
Definition dict_get (k : string) (c : gmap string value) : value :=
  default VNone (c !! k).

Definition cfg_get (k : string) : M world value :=
  gets (fun w => dict_get k (cfg w)).

Definition cfg_set (k : string) (v : value) : M world unit :=
  modify (fun w => with_cfg (<[k := v]> (cfg w)) w).

Definition get_retcode : M world Z := gets retcode.

Definition emit (e : event) : M world unit :=
  modify (fun w => with_trace (trace w ++ [e])%list w).

(** [retcode = z] *)
Definition set_retcode (z : Z) : M world unit :=
  modify (with_retcode z);;
  emit (ESetRetcode z).

Definition logging (level msg : string) : M world unit := emit (ELog level msg).

Definition enter (func : string) : M world unit := emit (EEnter func).

(** ** Collaborators and library calls outside the module *)

(** Everything the module calls but does not define.  A call that may fail
    answers with a [result]; the second argument of the loop-bound calls is
    the position in the loop. *)
Record env : Type := Env {
  (* the Python runtime *)
  repr_of : value -> string;
  json_dumps : gmap string value -> string;
  format_exc : exn -> string;
  clock : nat -> Z;
  strftime_now : string;
  abspath : string -> string;
  expanduser : string -> string;
  os_dirname : string -> string;
  os_basename : string -> string;
  getcwd : string;
  mkdtemp : string;
  literal_eval : value -> result value;
  read_lines : string -> result (list string);
  shutil_move : string -> string -> result unit;
  shutil_copyfile : string -> string -> result unit;
  (* skt helpers and skt.kernelbuilder.verify_target *)
  join_with_slash : string -> string -> string;
  get_patch_name : value -> result string;
  verify_target : value -> option string;
  (* KernelTree *)
  ktree_new : value -> value -> value -> value -> result unit;
  ktree_checkout : result string;
  ktree_get_commit_date : string -> result value;
  ktree_merge_git_ref : nat -> value -> result (Z * string);
  ktree_merge_patch_file : nat -> string -> result unit;
  ktree_merge_patchwork_patch : nat -> value -> result unit;
  ktree_mergelog : value;
  ktree_getpath : result string;
  ktree_get_commit_hash : result string;
  (* KernelBuilder *)
  builder_new : result unit;
  builder_clean_kernel_source : result unit;
  builder_mktgz : result value;
  builder_buildlog : value;
  builder_get_cfgpath : result value;
  builder_getrelease : result value;
  builder_build_arch : value;
  (* publisher *)
  getpublisher : value -> result unit;
  publisher_publish : value -> result value;
  (* runner *)
  getrunner : value -> result unit;
  runner_run : value -> value -> value -> value -> value -> result Z;
  runner_jobs : list string;
  runner_dumpjunitresults : string -> value -> result unit;
  (* reporter *)
  reporter_class : string -> bool;
  reporter_new : result unit;
  reporter_report : result unit
}.

Section Stages.

Variable E : env.

Definition str (v : value) : string := py_str (repr_of E) v.


Definition time_time : M world Z :=
  fun w => (Ret (clock E (ticks w)), with_ticks (S (ticks w)) w).

(** ** Artifact files *)

(** [skt.join_with_slash(cfg.get('output_dir'), name)] as the file [name] of
    the output directory. *)
Definition artifact (name : string) : M world (string * string) :=
  od ← cfg_get "output_dir";
  match od with
  | VStr d => mret (d, name)
  | _ => raise (Exn TypeError "output_dir")
  end.

(** Writing [new] from offset 0 into a file opened without [O_TRUNC]. *)
Definition write_over (old new : string) : string :=
  new ++ drop_str (String.length new) old.

(** [os.open(path, O_CREAT | O_WRONLY)], then [write(content)]: the directory
    has to exist, the file is created when missing and is not truncated
    otherwise. *)
Definition write_file (path : string * string) (content : string)
  : M world unit :=
  ds ← gets dirs;
  match ds !! path.1 with
  | None => raise (Exn OSError path.1)
  | Some fs =>
      modify (with_dirs
                (<[path.1 := <[path.2 := write_over (default "" (fs !! path.2))
                                                    content]> fs]> ds));;
      emit (EWrite path content)
  end.

Definition report_results (result_path : string * string)
    (result_string : string) (report_path : string * string)
    (report_string : string) : M world unit :=
  write_file result_path result_string;;
  write_file report_path report_string.

(** The "remove existing results from previous runs" block of merge, build
    and run: every file of the output directory whose name starts with
    [prefix] is unlinked; an [OSError] (here: the directory cannot be
    listed) is swallowed. *)
Definition purge (prefix : string) : M world unit :=
  try_except
    (od ← cfg_get "output_dir";
     match od with
     | VStr d =>
         ds ← gets dirs;
         match ds !! d with
         | None => raise (Exn OSError d)
         | Some fs =>
             modify (with_dirs
                       (<[d := filter (fun kv : string * string =>
                                         startswith prefix kv.1 = false) fs]>
                          ds))
         end
     | _ => raise (Exn TypeError "listdir")
     end)
    (fun e => if is_OSError e then Some (mret tt) else None).

(** ** save_state *)

(** [config.write(fileh)]: every value goes to disk as [str(value)]. *)
Definition serialise (d : document value) : document string :=
  map (fun sec => (sec.1, map (fun kv => (kv.1, str kv.2)) sec.2)) d.

(** [with open(cfg.get('rc'), 'w') as fileh: config.write(fileh)] *)
Definition write_rc : M world unit :=
  rc ← cfg_get "rc";
  match rc with
  | VStr p =>
      modify (fun w => with_rcfiles (<[p := serialise (parser w)]> (rcfiles w)) w)
  | _ => raise (Exn TypeError "open")
  end.

(** The second loop of [save_state]. *)
Fixpoint set_state_options (state : list (string * value)) : M world unit :=
  match state with
  | [] => mret tt
  | (key, val) :: rest =>
      match val with
      | VNone => mret tt
      | _ =>
          logging "debug" ("state: " ++ key ++ " -> " ++ str val);;
          modify (fun w => with_parser (config_set "state" key val (parser w)) w)
      end;;
      set_state_options rest
  end.

(** [state] is a dictionary literal at every call site; the list gives its
    items in iteration order. *)
Definition save_state (state : list (string * value)) : M world unit :=
  modify (fun w =>
            with_cfg (foldl (fun c kv => <[kv.1 := kv.2]> c) (cfg w) state) w);;
  enabled ← cfg_get "state";
  if negb (truthy enabled) then mret tt
  else
    modify (fun w =>
              if has_section "state" (parser w) then w
              else with_parser (add_section "state" (parser w)) w);;
    set_state_options state;;
    write_rc.

(** ** The junit wrapper *)

Definition add_error_info (msg : string) (t : testcase) : testcase :=
  TestCase (tc_name t) (tc_classname t) (Some msg) (tc_failure t)
           (tc_stdout t) (tc_elapsed t).

Definition add_failure_info (msg : string) (t : testcase) : testcase :=
  TestCase (tc_name t) (tc_classname t) (tc_error t) (Some msg)
           (tc_stdout t) (tc_elapsed t).

Definition finish_testcase (out : string) (elapsed : Z) (t : testcase)
  : testcase :=
  TestCase (tc_name t) (tc_classname t) (tc_error t) (tc_failure t)
           out elapsed.

(** [wrapper(cfg)] as built by [junit(func)]; [name] is [func.__name__]. *)
Definition wrapper (name : string) (func : M world unit) : M world unit :=
  junit ← cfg_get "junit";
  if truthy junit then
    tstart ← time_time;
    let testcase := TestCase name "skt" None None "" 0 in
    testcase ←
      try_except
        (func;; mret testcase)
        (fun e =>
           if is_Exception e then
             Some (logging "error"
                     ("Unexpected exception caught, probably an "
                      ++ "infrastructure failure or skt bug: "
                      ++ format_exc E e);;
                   let testcase := add_error_info (format_exc E e) testcase in
                   set_retcode SKT_ERROR;;
                   mret testcase)
           else None);
    rc ← get_retcode;
    let testcase :=
      if Z.eqb rc SKT_FAIL then
        add_failure_info ("Step finished with retcode: " ++ pretty rc) testcase
      else if Z.leb SKT_ERROR rc then
        add_error_info
          ("Infrastructure issue or skt bug detected, retcode: " ++ pretty rc)
          testcase
      else testcase in
    out ← gets (fun w => json_dumps E (cfg w));
    tend ← time_time;
    modify (fun w =>
              with_testcases
                (testcases w ++ [finish_testcase out (tend - tstart) testcase])%list
                w)
  else func.

(** ** Python sequences *)

Fixpoint chars (s : string) : list value :=
  match s with
  | EmptyString => []
  | String c r => VStr (String c EmptyString) :: chars r
  end.

(** The items a [for] loop draws from a value. *)
Definition py_iter (v : value) : result (list value) :=
  match v with
  | VList l => Ret l
  | VStr s => Ret (chars s)
  | VSet s => Ret (VStr <$> elements s)
  | VDict d => Ret ((fun kv => VStr kv.1) <$> d)
  | _ => Raise (Exn TypeError "not iterable")
  end.

(** [v[0]] *)
Definition py_getitem0 (v : value) : result value :=
  match v with
  | VList (x :: _) => Ret x
  | VStr (String c _) => Ret (VStr (String c EmptyString))
  | VList [] | VStr EmptyString => Raise (Exn IndexError "index out of range")
  | _ => Raise (Exn TypeError "not subscriptable")
  end.

(** [sep.join(l)] *)
Fixpoint join_with (sep : string) (l : list string) : string :=
  match l with
  | [] => ""
  | [x] => x
  | x :: r => x ++ sep ++ join_with sep r
  end.

(** ** cmd_merge *)

Record merge_locals : Type := MergeLocals {
  utypes : list string;
  idx : nat;
  bhead : string;
  report_string : string
}.

Definition set_utypes (u : list string) (l : merge_locals) : merge_locals :=
  MergeLocals u (idx l) (bhead l) (report_string l).

Definition set_idx (n : nat) (l : merge_locals) : merge_locals :=
  MergeLocals (utypes l) n (bhead l) (report_string l).

Definition set_bhead (b : string) (l : merge_locals) : merge_locals :=
  MergeLocals (utypes l) (idx l) b (report_string l).

Definition set_report_string (r : string) (l : merge_locals) : merge_locals :=
  MergeLocals (utypes l) (idx l) (bhead l) r.

Definition append_report (r : string) : M (merge_locals * world) unit :=
  set_locals (fun l => set_report_string (report_string l ++ r) l).

(** [for mb in cfg.get('merge_ref')] *)
Fixpoint merge_ref_loop (merge_result_path merge_report_path : string * string)
    (mbs : list value) : M (merge_locals * world) flow :=
  match mbs with
  | [] => mret Next
  | mb :: rest =>
      l ← locals;
      mb0 ← call (py_getitem0 mb);
      lift (save_state [("mergerepo_" ++ fmt_02d (idx l), mb0);
                        ("mergehead_" ++ fmt_02d (idx l), VStr (bhead l))]);;
      r ← call (ktree_merge_git_ref E (idx l) mb);
      lift (set_retcode r.1);;
      set_locals (set_bhead r.2);;
      set_locals (fun l => set_utypes (utypes l ++ ["[git]"])%list l);;
      if negb (Z.eqb r.1 0) then
        (if negb (Z.eqb r.1 SKT_ERROR) then
           l ← locals;
           lift (report_results merge_result_path "false"
                                merge_report_path (report_string l))
         else mret tt);;
        mret Return
      else
        append_report ("  - " ++ str mb0 ++ newline ++ "    into commit "
                       ++ take_str 12 r.2);;
        set_locals (fun l => set_idx (S (idx l)) l);;
        merge_ref_loop merge_result_path merge_report_path rest
  end.

(** [for patch in cfg.get('patch')] *)
Fixpoint patch_loop (patches : list value) : M (merge_locals * world) unit :=
  match patches with
  | [] => mret tt
  | p :: rest =>
      patch ← match p with
              | VStr s => mret (abspath E s)
              | _ => raise (Exn AttributeError "abspath")
              end;
      l ← locals;
      lift (save_state [("localpatch_" ++ fmt_02d (idx l), VStr patch)]);;
      append_report ("  - " ++ patch ++ newline);;
      call (ktree_merge_patch_file E (idx l) patch);;
      set_locals (fun l => set_idx (S (idx l)) l);;
      patch_loop rest
  end.

(** [for patch in cfg.get('pw')] *)
Fixpoint pw_loop (patches : list value) : M (merge_locals * world) unit :=
  match patches with
  | [] => mret tt
  | patch :: rest =>
      l ← locals;
      lift (save_state [("patchwork_" ++ fmt_02d (idx l), patch)]);;
      name ← call (get_patch_name E patch);
      append_report ("  - " ++ name ++ "," ++ newline);;
      append_report ("    grabbed from " ++ str patch ++ newline);;
      call (ktree_merge_patchwork_patch E (idx l) patch);;
      set_locals (fun l => set_idx (S (idx l)) l);;
      pw_loop rest
  end.

(** The body of the [try] statement. *)
Definition merge_try (merge_result_path merge_report_path : string * string)
  : M (merge_locals * world) flow :=
  merge_ref ← lift (cfg_get "merge_ref");
  patch ← lift (cfg_get "patch");
  pw ← lift (cfg_get "pw");
  if truthy merge_ref then
    set_locals (fun l =>
                  set_report_string
                    (report_string l ++ newline
                     ++ "We merged the following references into the tree:") l);;
    mbs ← call (py_iter merge_ref);
    merge_ref_loop merge_result_path merge_report_path mbs
  else if truthy patch || truthy pw then
    set_locals (set_report_string
                  ("We applied the following patch(es):" ++ newline));;
    (if truthy patch then
       set_locals (fun l => set_utypes (utypes l ++ ["[local patch]"])%list l);;
       ps ← call (py_iter patch);
       patch_loop ps
     else if truthy pw then
       set_locals (fun l => set_utypes (utypes l ++ ["[patchwork]"])%list l);;
       ps ← call (py_iter pw);
       pw_loop ps
     else mret tt);;
    l ← locals;
    baserepo ← lift (cfg_get "baserepo");
    append_report
      (join_lines ["on top of commit " ++ take_str 12 (bhead l)
                   ++ " from the repository at";
                   "  " ++ str baserepo]);;
    mret Next
  else mret Next.

(** The lines of the merge log up to the first useless one, indented. *)
Fixpoint mergelog_excerpt (lines : list string) : string :=
  match lines with
  | [] => ""
  | line :: rest =>
      if contains "The copy of the patch" line
         || contains "see the failed patch" line
      then ""
      else "    " ++ strip line ++ newline ++ mergelog_excerpt rest
  end.

(** The [except PatchApplicationError] clause. *)
Definition merge_patch_failed (patch_exc : exn)
    (merge_result_path merge_report_path : string * string)
  : M (merge_locals * world) flow :=
  lift (set_retcode SKT_FAIL);;
  lift (logging "error" (exn_msg patch_exc));;
  lift (save_state [("mergelog", ktree_mergelog E)]);;
  append_report
    (join_lines [newline ++ "However, the application of the last patch above "
                 ++ "failed with the";
                 "following output:" ++ newline ++ newline]);;
  lines ← match ktree_mergelog E with
          | VStr p => call (read_lines E p)
          | _ => raise (Exn TypeError "open")
          end;
  append_report (mergelog_excerpt lines);;
  append_report
    (join_lines [newline ++ "Please note that if there are subsequent patches "
                 ++ "in the series, they weren't";
                 "applied because of the error message stated above."
                 ++ newline]);;
  l ← locals;
  lift (report_results merge_result_path "false"
                       merge_report_path (report_string l));;
  mret Return.

(** The function that [@junit] decorates under the name [cmd_merge]. *)
Definition cmd_merge_func : M world unit :=
  enter "cmd_merge";;
  baserepo ← cfg_get "baserepo";
  ref ← cfg_get "ref";
  workdir ← cfg_get "workdir";
  fetch_depth ← cfg_get "fetch_depth";
  call (ktree_new E baserepo ref workdir fetch_depth);;
  bhead0 ← call (ktree_checkout E);
  commitdate ← call (ktree_get_commit_date E bhead0);
  baserepo ← cfg_get "baserepo";
  save_state [("baserepo", baserepo); ("basehead", VStr bhead0);
              ("commitdate", commitdate)];;
  purge "merge.";;
  baserepo ← cfg_get "baserepo";
  let report0 :=
    join_lines ["We cloned the git tree and checked out " ++ take_str 12 bhead0
                ++ " from the repository at";
                "  " ++ str baserepo] in
  merge_result_path ← artifact "merge.result";
  merge_report_path ← artifact "merge.report";
  with_frame (MergeLocals [] 0 bhead0 report0)
    (fl ← try_except
            (merge_try merge_result_path merge_report_path)
            (fun e =>
               if is_PatchApplicationError e
               then Some (merge_patch_failed e merge_result_path
                                             merge_report_path)
               else None);
     match fl with
     | Return => mret tt
     | Next =>
         l ← locals;
         let uid := match utypes l with
                    | [] => "[baseline]"
                    | _ => join_with " " (utypes l)
                    end in
         kpath ← call (ktree_getpath E);
         buildhead ← call (ktree_get_commit_hash E);
         lift (save_state [("workdir", VStr kpath);
                           ("buildhead", VStr buildhead);
                           ("uid", VStr uid)]);;
         l ← locals;
         lift (report_results merge_result_path "true"
                              merge_report_path (report_string l))
     end).

(** ** cmd_build *)

(** [addtstamp] *)
Definition addtstamp (path tstamp : string) : string :=
  join_with_slash E (os_dirname E path) (tstamp ++ "-" ++ os_basename E path).

Definition path_of (what : string) (v : value) : M world string :=
  match v with
  | VStr p => mret p
  | _ => raise (Exn TypeError what)
  end.

(** The function that [@junit] decorates under the name [cmd_build]. *)
Definition cmd_build_func : M world unit :=
  enter "cmd_build";;
  let tstamp := strftime_now E in
  purge "build.";;
  build_result_path ← artifact "build.result";
  build_report_path ← artifact "build.report";
  call (builder_new E);;
  wipe ← cfg_get "wipe";
  (if truthy wipe then call (builder_clean_kernel_source E) else mret tt);;
  tgz ← try_except
          (call (builder_mktgz E))
          (fun exc =>
             if is_build_failure exc then
               Some (logging "error" (exn_msg exc);;
                     save_state [("buildlog", builder_buildlog E)];;
                     set_retcode SKT_FAIL;;
                     mret VNone)
             else None);
  (if truthy tgz then
     buildhead ← cfg_get "buildhead";
     src ← path_of "move" tgz;
     let ttgz := if truthy buildhead then str buildhead ++ ".tar.gz"
                 else addtstamp src tstamp in
     call (shutil_move E src ttgz);;
     modify (fun w => with_files ((files w ∖ {[src]}) ∪ {[ttgz]}) w);;
     logging "info" ("tarball path: " ++ ttgz);;
     save_state [("tarpkg", VStr ttgz)]
   else mret tt);;
  buildhead ← cfg_get "buildhead";
  let tconfig := str buildhead ++ ".csv.config" in
  cfgpath ← call (builder_get_cfgpath E);
  src ← path_of "copyfile" cfgpath;
  call (shutil_copyfile E src tconfig);;
  modify (fun w => with_files (files w ∪ {[tconfig]}) w);;
  krelease ← call (builder_getrelease E);
  let kernel_arch := builder_build_arch E in
  save_state [("buildconf", VStr tconfig); ("krelease", krelease);
              ("kernel_arch", kernel_arch)];;
  let report_string :=
    "The kernel was built with the attached configuration ({" ++ tconfig
    ++ "})" in
  rc ← get_retcode;
  report_string ←
    (if negb (Z.eqb rc 0) then
       buildlog ← match builder_buildlog E with
                  | VStr p => mret (os_basename E p)
                  | _ => raise (Exn AttributeError "basename")
                  end;
       mret (report_string
             ++ join_lines [newline ++ "However, the build failed. We are "
                            ++ "attaching the build output for";
                            "more information ({" ++ buildlog ++ "})"])
     else mret report_string);
  rc ← get_retcode;
  report_results build_result_path (if Z.eqb rc 0 then "true" else "false")
                 build_report_path report_string.

(** ** cmd_publish *)

Definition dquote : string := String (ascii_of_nat 34) EmptyString.

(** The function that [@junit] decorates under the name [cmd_publish]. *)
Definition cmd_publish_func : M world unit :=
  enter "cmd_publish";;
  publisher ← cfg_get "publisher";
  call (getpublisher E publisher);;
  tarpkg ← cfg_get "tarpkg";
  if negb (truthy tarpkg) then
    raise (Exn Exception ("skt publish is missing " ++ dquote
                          ++ "--tarpkg <path>" ++ dquote ++ " option"))
  else
    url ← call (publisher_publish E tarpkg);
    logging "info" ("published url: " ++ str url);;
    buildconf ← cfg_get "buildconf";
    cfgurl ← (if truthy buildconf then call (publisher_publish E buildconf)
              else mret VNone);
    save_state [("buildurl", url); ("cfgurl", cfgurl)].

(** ** cmd_run *)

(** [for job in runner.jobs] *)
Fixpoint run_jobs_loop (jobs : list string) (idx : nat) : M world unit :=
  match jobs with
  | [] => mret tt
  | job :: rest =>
      wait ← cfg_get "wait";
      junit ← cfg_get "junit";
      (if truthy wait && truthy junit then
         try_except
           (call (runner_dumpjunitresults E job junit))
           (fun exc =>
              if is_Exception exc then
                Some (logging "error" (exn_msg exc);;
                      set_retcode SKT_ERROR)
              else None)
       else mret tt);;
      save_state [("jobid_" ++ pretty idx, VStr job)];;
      run_jobs_loop rest (S idx)
  end.

(** The function that [@junit] decorates under the name [cmd_run]. *)
Definition cmd_run_func : M world unit :=
  enter "cmd_run";;
  purge "run.";;
  let report_string := "" in
  run_result_path ← artifact "run.result";
  run_report_path ← artifact "run.report";
  runner ← cfg_get "runner";
  call (getrunner E runner);;
  buildurl ← cfg_get "buildurl";
  krelease ← cfg_get "krelease";
  wait ← cfg_get "wait";
  uid ← cfg_get "uid";
  arch ← cfg_get "kernel_arch";
  rc ← call (runner_run E buildurl krelease wait uid arch);
  set_retcode rc;;
  run_jobs_loop (runner_jobs E) 0;;
  cfg_set "jobs" (VList (VStr <$> runner_jobs E));;
  rc ← get_retcode;
  save_state [("retcode", VInt rc)];;
  rc ← get_retcode;
  if negb (Z.eqb rc SKT_ERROR) then
    report_results run_result_path
                   (if negb (Z.eqb rc 0) then "true" else "false")
                   run_report_path report_string
  else mret tt.

(** ** cmd_report *)

(** [cfg['reporter']['type']], a string whose [title()] can be taken. *)
Definition reporter_type (reporter : value) : result string :=
  match reporter with
  | VDict d =>
      match odict_get "type" d with
      | Some (VStr s) => Ret s
      | Some _ => Raise (Exn AttributeError "title")
      | None => Raise (Exn KeyError "type")
      end
  | _ => Raise (Exn TypeError "indices must be integers")
  end.

(** The oracle [reporter_class] says whether [skt.reporter] has the class
    named after the type.  When the [AttributeError] comes from [title()],
    the handler meets an unbound [class_name]. *)
Definition cmd_report : M world unit :=
  enter "cmd_report";;
  reporter ← cfg_get "reporter";
  if negb (truthy reporter) then mret tt
  else
    try_except (S := world) (A := unit)
      (ty ← call (reporter_type reporter);
       if reporter_class E ty then mret tt
       else raise (Exn SystemExit
                       ("Unable to find specified reporter type: " ++ ty)))
      (fun e =>
         match exn_cls e with
         | AttributeError => Some (raise (Exn UnboundLocalError "class_name"))
         | _ => None
         end);;
    call (reporter_new E);;
    call (reporter_report E).

(** ** cmd_cleanup *)

(** [os.unlink(path)] *)
Definition os_unlink (path : value) : M world unit :=
  p ← path_of "unlink" path;
  fs ← gets files;
  if bool_decide (p ∈ fs) then modify (fun w => with_files (files w ∖ {[p]}) w)
  else raise (Exn OSError p).

(** [shutil.rmtree(path)], without [ignore_errors]. *)
Definition shutil_rmtree (path : value) : M world unit :=
  p ← path_of "rmtree" path;
  ds ← gets dirs;
  match ds !! p with
  | Some _ => modify (with_dirs (delete p ds))
  | None => raise (Exn OSError p)
  end.

Definition cmd_cleanup : M world unit :=
  enter "cmd_cleanup";;
  config ← gets parser;
  (if has_section "state" config then
     modify (fun w => with_parser (remove_section "state" (parser w)) w);;
     write_rc
   else mret tt);;
  tarpkg ← cfg_get "tarpkg";
  (if truthy tarpkg then
     try_except (os_unlink tarpkg)
                (fun e => if is_OSError e then Some (mret tt) else None)
   else mret tt);;
  wipe ← cfg_get "wipe";
  workdir ← cfg_get "workdir";
  if truthy wipe && truthy workdir then shutil_rmtree workdir else mret tt.

(** ** cmd_all *)

Definition cmd_merge : M world unit := wrapper "cmd_merge" cmd_merge_func.
Definition cmd_build : M world unit := wrapper "cmd_build" cmd_build_func.
Definition cmd_publish : M world unit := wrapper "cmd_publish" cmd_publish_func.
Definition cmd_run : M world unit := wrapper "cmd_run" cmd_run_func.

Definition cmd_all : M world unit :=
  cmd_merge;;
  cmd_build;;
  cmd_publish;;
  cmd_run;;
  wait ← cfg_get "wait";
  (if truthy wait then cmd_report else mret tt);;
  cmd_cleanup.

End Stages.

(** ** load_config *)

Section Load.

Variable E : env.












End Load.

(** * Vocabulary of the statements *)

(** ** Frame relations *)

(** Whatever way [m] ends, the final state is related to the initial one. *)
Definition preserves {S : Type} (R : S -> S -> Prop) {A : Type} (m : M S A)
  : Prop :=
  forall s r s', m s = (r, s') -> R s s'.

(** A relation on worlds, read on the world under a frame of locals. *)
Definition on_world {L : Type} (R : world -> world -> Prop)
  : L * world -> L * world -> Prop :=
  fun s s' => R s.2 s'.2.

(** The value of [retcode] after the events [evs], from [z0] before them. *)
Definition last_write (z0 : Z) (evs : list event) : Z :=
  foldl (fun z e => match e with ESetRetcode z' => z' | _ => z end) z0 evs.

(** [rel K P D w w']: from [w] to [w'] only configuration keys in [K] were
    assigned, the events added all satisfy [P], [retcode] is what the added
    assignments make it, no test case was recorded and, when [D] is set, no
    directory changed. *)
Record rel (K : string -> bool) (P : event -> bool) (D : bool)
    (w w' : world) : Prop := Rel {
  rel_cfg : forall k, K k = false -> cfg w' !! k = cfg w !! k;
  rel_trace : exists evs,
      trace w' = (trace w ++ evs)%list /\ forallb P evs = true
      /\ retcode w' = last_write (retcode w) evs;
  rel_testcases : testcases w' = testcases w;
  rel_dirs : D = true -> dirs w' = dirs w
}.

(** The configuration keys the stages assign through [save_state] or
    directly. *)
Definition stage_keys (k : string) : bool :=
  bool_decide (k ∈ ["baserepo"; "basehead"; "commitdate"; "mergelog";
                    "workdir"; "buildhead"; "uid"; "buildlog"; "tarpkg";
                    "buildconf"; "krelease"; "kernel_arch"; "buildurl";
                    "cfgurl"; "jobs"; "retcode"])
  || startswith "mergerepo_" k || startswith "mergehead_" k
  || startswith "localpatch_" k || startswith "patchwork_" k
  || startswith "jobid_" k.

(** Events of a stage body: anything but entering a function. *)
Definition ev_body (e : event) : bool :=
  match e with EEnter _ => false | _ => true end.

(** ** Stages, outcomes and state *)

(** The classification the wrapper draws from the final [retcode]. *)
Definition classify (rc : Z) (t : testcase) : testcase :=
  if Z.eqb rc SKT_FAIL then
    add_failure_info ("Step finished with retcode: " ++ pretty rc) t
  else if Z.leb SKT_ERROR rc then
    add_error_info
      ("Infrastructure issue or skt bug detected, retcode: " ++ pretty rc) t
  else t.

(** The world once the wrapper has appended the test case [t], classified
    and completed, to the one the stage left. *)
Definition recorded (E : env) (tstart : Z) (t : testcase) (w1 : world) : world :=
  with_testcases
    (testcases w1
     ++ [finish_testcase (json_dumps E (cfg w1)) (clock E (ticks w1) - tstart)
                         (classify (retcode w1) t)])%list
    (with_ticks (S (ticks w1)) w1).

(** The world after the [except Exception] clause of the wrapper. *)
Definition caught (E : env) (e : exn) (w1 : world) : world :=
  with_trace
    (trace w1
     ++ [ELog "error" ("Unexpected exception caught, probably an "
                       ++ "infrastructure failure or skt bug: " ++ format_exc E e);
         ESetRetcode SKT_ERROR])%list
    (with_retcode SKT_ERROR w1).

Definition fresh_testcase (name : string) : testcase :=
  TestCase name "skt" None None "" 0.

Definition ticked (w : world) : world := with_ticks (S (ticks w)) w.

Definition infrastructure_issue (rc : Z) : string :=
  "Infrastructure issue or skt bug detected, retcode: " ++ pretty rc.

Definition missing_tarpkg : exn :=
  Exn Exception ("skt publish is missing " ++ dquote ++ "--tarpkg <path>"
                 ++ dquote ++ " option").

(** The functions entered, in order. *)
Definition entered (evs : list event) : list string :=
  omap (fun e => match e with EEnter n => Some n | _ => None end) evs.

(** From [w] to [w'] exactly the functions [names] were entered, and the
    [junit] and [wait] entries of the configuration did not change. *)
Definition ran (names : list string) (w w' : world) : Prop :=
  (exists evs, trace w' = (trace w ++ evs)%list /\ entered evs = names)
  /\ dict_get "junit" (cfg w') = dict_get "junit" (cfg w)
  /\ dict_get "wait" (cfg w') = dict_get "wait" (cfg w).

(** A fault that [except Exception] does not catch, or a normal return. *)
Definition returns_or_escapes {A : Type} (r : result A) : Prop :=
  match r with
  | Ret _ => True
  | Raise e => is_Exception e = false
  end.

Definition wrapped_stages : list string :=
  ["cmd_merge"; "cmd_build"; "cmd_publish"; "cmd_run"].

Definition all_stages (wait : bool) : list string :=
  (wrapped_stages ++ (if wait then ["cmd_report"] else []) ++ ["cmd_cleanup"])%list.

(** A fault that derives from [Exception], or a normal return. *)
Definition returns_or_fails {A : Type} (r : result A) : Prop :=
  match r with
  | Ret _ => True
  | Raise e => is_Exception e = true
  end.

(** Events that write no file. *)
Definition ev_nowrite (e : event) : bool :=
  match e with EWrite _ _ | EEnter _ => false | _ => true end.

(** Events that write no file and assign nothing but [SKT_ERROR] to
    [retcode]. *)
Definition ev_error_only (e : event) : bool :=
  match e with
  | ELog _ _ => true
  | ESetRetcode z => Z.eqb z SKT_ERROR
  | _ => false
  end.



(** The two files of an artifact pair of the directory [d], written last
    and holding exactly the strings given. *)
Definition pair_written (d result_name result_string report_name
                           report_string : string) (w0 w' : world) : Prop :=
  trace w' = (trace w0 ++ [EWrite (d, result_name) result_string;
                           EWrite (d, report_name) report_string])%list
  /\ exists fs, dirs w' !! d = Some fs
                /\ fs !! result_name = Some result_string
                /\ fs !! report_name = Some report_string.





Local Abbreviation Rq := (rel stage_keys ev_nowrite true).


Inductive stage : Type := Merge | Build | Publish | Run.

Definition stage_name (st : stage) : string :=
  match st with
  | Merge => "cmd_merge"
  | Build => "cmd_build"
  | Publish => "cmd_publish"
  | Run => "cmd_run"
  end.

Definition stage_func (E : env) (st : stage) : M world unit :=
  match st with
  | Merge => cmd_merge_func E
  | Build => cmd_build_func E
  | Publish => cmd_publish_func E
  | Run => cmd_run_func E
  end.

(** The stage as the rest of the module calls it, through the wrapper. *)
Definition run_stage (E : env) (st : stage) : M world unit :=
  wrapper E (stage_name st) (stage_func E st).




(** The values assigned to [retcode], in order. *)
Definition retcode_writes (evs : list event) : list Z :=
  omap (fun e => match e with ESetRetcode z => Some z | _ => None end) evs.

(** Once a value of the ERROR tier has been assigned, every later
    assignment is of the ERROR tier too. *)
Definition error_sticks (zs : list Z) : Prop :=
  forall (i j : nat) (z z' : Z),
    (i < j)%nat -> zs !! i = Some z -> zs !! j = Some z' ->
    SKT_ERROR <= z -> SKT_ERROR <= z'.

(** Events of a stage body that assign only values below the ERROR tier. *)
Definition ev_low (e : event) : bool :=
  match e with
  | ESetRetcode z => Z.ltb z SKT_ERROR
  | EEnter _ => false
  | _ => true
  end.

(** Events of a stage body that assign only values of the ERROR tier. *)
Definition ev_tier (e : event) : bool :=
  match e with
  | ESetRetcode z => Z.leb SKT_ERROR z
  | EEnter _ => false
  | _ => true
  end.

(** Events of a stage body that assign nothing to [retcode]. *)
Definition ev_keep (e : event) : bool :=
  match e with
  | ESetRetcode _ | EEnter _ => false
  | _ => true
  end.

Definition assigned (z : Z) (w : world) : world :=
  with_trace (trace w ++ [ESetRetcode z]) (with_retcode z w).

(** The assignments from [w0] to [w1] are some values below the ERROR tier,
    then at most one value of any kind, then values of the ERROR tier. *)
Definition shaped (w0 w1 : world) : Prop :=
  rel stage_keys ev_low false w0 w1
  \/ exists wm z,
       rel stage_keys ev_low false w0 wm
       /\ rel stage_keys ev_tier false (assigned z wm) w1.

Local Abbreviation Rlow := (rel stage_keys ev_low false).

Local Abbreviation Rtier := (rel stage_keys ev_tier false).

Local Abbreviation Rkeep := (rel stage_keys ev_keep false).

(** How a block of the merge stage assigns [retcode]: only values below
    the ERROR tier; or such values and then one last value, after which
    the block executes [return] or is left by a fault that the [except
    PatchApplicationError] clause does not catch. *)
Definition merge_shape (w : world) (r : result flow) (w' : world) : Prop :=
  Rlow w w'
  \/ exists wm z,
       Rlow w wm /\ Rkeep (assigned z wm) w'
       /\ match r with
          | Ret fl => fl = Return
          | Raise e => is_PatchApplicationError e = false
          end.

(** The assignments of a segment of events: low values, at most one value
    of any kind, values of the ERROR tier. *)
Definition writes_shape (zs : list Z) : Prop :=
  exists lows tl es,
    zs = (lows ++ tl ++ es)%list
    /\ Forall (fun z => z < SKT_ERROR) lows /\ (length tl <= 1)%nat
    /\ Forall (fun z => SKT_ERROR <= z) es.















(** * Sample collaborators and worlds *)

(** Collaborators that all succeed, except for the answers given as
    arguments. *)
Definition sample_env (checkout : result string)
    (merge_git_ref : nat -> value -> result (Z * string))
    (mktgz : result value) (run : result Z) (jobs : list string)
    (dump : string -> result unit) : env := {|
  repr_of := fun _ => "<object>";
  json_dumps := fun _ => "{}";
  format_exc := fun e => "Traceback: " ++ exn_msg e;
  clock := fun n => Z.of_nat n;
  strftime_now := "20180101000000";
  abspath := fun p => if startswith "/" p then p else "/cwd/" ++ p;
  expanduser := fun p => p;
  os_dirname := fun _ => "/w";
  os_basename := fun p => p;
  getcwd := "/cwd";
  mkdtemp := "/tmp/skt";
  literal_eval := fun v => Ret v;
  read_lines := fun _ => Ret [];
  shutil_move := fun _ _ => Ret tt;
  shutil_copyfile := fun _ _ => Ret tt;
  join_with_slash := fun a b => a ++ "/" ++ b;
  get_patch_name := fun _ => Ret "patch";
  verify_target := fun _ => Some "x86_64";
  ktree_new := fun _ _ _ _ => Ret tt;
  ktree_checkout := checkout;
  ktree_get_commit_date := fun _ => Ret (VInt 1525132800);
  ktree_merge_git_ref := merge_git_ref;
  ktree_merge_patch_file := fun _ _ => Ret tt;
  ktree_merge_patchwork_patch := fun _ _ => Ret tt;
  ktree_mergelog := VStr "/w/merge.log";
  ktree_getpath := Ret "/w";
  ktree_get_commit_hash := Ret "abcdef012345";
  builder_new := Ret tt;
  builder_clean_kernel_source := Ret tt;
  builder_mktgz := mktgz;
  builder_buildlog := VStr "/w/build.log";
  builder_get_cfgpath := Ret (VStr "/w/.config");
  builder_getrelease := Ret (VStr "4.16.0");
  builder_build_arch := VStr "x86_64";
  getpublisher := fun _ => Ret tt;
  publisher_publish := fun v => Ret v;
  getrunner := fun _ => Ret tt;
  runner_run := fun _ _ _ _ _ => run;
  runner_jobs := jobs;
  runner_dumpjunitresults := fun j _ => dump j;
  reporter_class := fun _ => true;
  reporter_new := Ret tt;
  reporter_report := Ret tt
|}.

Definition env_ok : env :=
  sample_env (Ret "0123456789abcdef") (fun _ _ => Ret (0, "fedcba9876543210"))
             (Ret (VStr "/w/linux.tar.gz")) (Ret 0) [] (fun _ => Ret tt).

(** A fresh invocation: [retcode] is [SKT_SUCCESS], the work directory
    [/w] exists and is empty, there is no rc file on disk. *)
Definition sample_world (c : list (string * value)) : world := {|
  retcode := SKT_SUCCESS;
  cfg := list_to_map c;
  parser := [];
  testcases := [];
  rcfiles := ∅;
  dirs := {["/w" := ∅]};
  files := ∅;
  trace := [];
  ticks := 0
|}.

Definition env_checkout_fails : env :=
  sample_env (Raise (Exn OSError "git clone failed"))
             (fun _ _ => Ret (0, "fedcba9876543210"))
             (Ret (VStr "/w/linux.tar.gz")) (Ret 0) [] (fun _ => Ret tt).

Definition world_no_junit : world :=
  sample_world [("rc", VStr "/rc"); ("workdir", VStr "/w");
                ("output_dir", VStr "/w"); ("baserepo", VStr "git://base")].

Definition world_junit : world :=
  sample_world [("rc", VStr "/rc"); ("workdir", VStr "/w");
                ("output_dir", VStr "/w"); ("baserepo", VStr "git://base");
                ("junit", VStr "/junit")].

Definition world_junit_publisher : world :=
  sample_world [("rc", VStr "/rc"); ("workdir", VStr "/w");
                ("output_dir", VStr "/w"); ("junit", VStr "/junit");
                ("publisher",
                 VList [VStr "cp"; VStr "/srv/builds"; VStr "http://host/builds"])].

Definition world_publisher : world :=
  sample_world [("rc", VStr "/rc"); ("workdir", VStr "/w");
                ("output_dir", VStr "/w");
                ("publisher",
                 VList [VStr "cp"; VStr "/srv/builds"; VStr "http://host/builds"])].

Definition env_build_fails : env :=
  sample_env (Ret "0123456789abcdef") (fun _ _ => Ret (0, "fedcba9876543210"))
             (Raise (Exn CalledProcessError "make: *** [vmlinux] Error 2"))
             (Ret 0) [] (fun _ => Ret tt).

Definition all_cfg : list (string * value) :=
  [("rc", VStr "/rc"); ("workdir", VStr "/w"); ("output_dir", VStr "/w");
   ("baserepo", VStr "git://base");
   ("publisher",
    VList [VStr "cp"; VStr "/srv/builds"; VStr "http://host/builds"]);
   ("runner", VList [VStr "beaker"; VDict []])].

Definition world_all : world := sample_world all_cfg.

Definition world_all_junit : world :=
  sample_world (("junit", VStr "/junit") :: all_cfg).


(** A runner that answers with a code above [SKT_ERROR]. *)
Definition env_run_above_error : env :=
  sample_env (Ret "0123456789abcdef") (fun _ _ => Ret (0, "fedcba9876543210"))
             (Ret (VStr "/w/linux.tar.gz")) (Ret 3) [] (fun _ => Ret tt).

Definition world_stale_state : world := {|
  retcode := SKT_SUCCESS;
  cfg := list_to_map [("rc", VStr "/rc"); ("workdir", VStr "/gone");
                      ("wipe", VBool true); ("state", VBool false)];
  parser := [("config", [("workdir", VStr "/gone")]);
             ("state", [("buildhead", VStr "abcdef012345")])];
  testcases := [];
  rcfiles := {["/rc" := [("config", [("workdir", "/gone")]);
                         ("state", [("buildhead", "abcdef012345")])]]};
  dirs := ∅;
  files := ∅;
  trace := [];
  ticks := 0
|}.




(** A runner that submits two jobs; the results of the first cannot be
    translated, those of the second can. *)
Definition env_first_dump_fails : env :=
  sample_env (Ret "0123456789abcdef") (fun _ _ => Ret (0, "fedcba9876543210"))
             (Ret (VStr "/w/linux.tar.gz")) (Ret 0) ["J:1"; "J:2"]
             (fun j => if String.eqb j "J:1"
                       then Raise (Exn ValueError "no results for J:1")
                       else Ret tt).

Definition world_wait_junit : world :=
  sample_world (("junit", VStr "/junit") :: ("wait", VBool true) :: all_cfg).








(** * Reasoning about computations *)

Section Preserves.

Context {S : Type} (R : S -> S -> Prop) `{!PreOrder R}.

Lemma preserves_ret {A : Type} (a : A) : preserves R (mret a).
Proof. intros s r s' [= _ <-]. reflexivity. Qed.

Lemma preserves_raise {A : Type} (e : exn) : preserves R (raise (A := A) e).
Proof. intros s r s' [= _ <-]. reflexivity. Qed.

Lemma preserves_call {A : Type} (x : result A) : preserves R (call x).
Proof. intros s r s' [= _ <-]. reflexivity. Qed.

Lemma preserves_gets {A : Type} (f : S -> A) : preserves R (gets f).
Proof. intros s r s' [= _ <-]. reflexivity. Qed.

Lemma preserves_modify (f : S -> S) :
  (forall s, R s (f s)) -> preserves R (modify f).
Proof. intros Hf s r s' [= _ <-]. apply Hf. Qed.

Lemma preserves_bind {A B : Type} (m : M S A) (f : A -> M S B) :
  preserves R m -> (forall a, preserves R (f a)) -> preserves R (m ≫= f).
Proof.
  intros Hm Hf s r s'. unfold mbind, M_bind, bind.
  destruct (m s) as [[a|e] s1] eqn:Hms; intros Hr.
  - transitivity s1; [eapply Hm | eapply Hf]; eassumption.
  - injection Hr as _ <-. eapply Hm; eassumption.
Qed.

Lemma preserves_try {A : Type} (m : M S A) (h : exn -> option (M S A)) :
  preserves R m ->
  (forall e, match h e with Some k => preserves R k | None => True end) ->
  preserves R (try_except m h).
Proof.
  intros Hm Hh s r s'. unfold try_except.
  destruct (m s) as [[a|e] s1] eqn:Hms; intros Hr.
  - injection Hr as _ <-. eapply Hm; eassumption.
  - specialize (Hh e). destruct (h e) as [k|].
    + transitivity s1; [eapply Hm | eapply Hh]; eassumption.
    + injection Hr as _ <-. eapply Hm; eassumption.
Qed.

End Preserves.

#[global] Instance on_world_preorder {L : Type} (R : world -> world -> Prop) :
  PreOrder R -> PreOrder (on_world (L := L) R).
Proof.
  intros HR. split.
  - intros s. unfold on_world. reflexivity.
  - intros s1 s2 s3. unfold on_world. intros H1 H2. etransitivity; eassumption.
Qed.

Section PreservesFrame.

Context {L : Type} (R : world -> world -> Prop) `{!PreOrder R}.

Lemma preserves_lift {A : Type} (m : M world A) :
  preserves R m -> preserves (on_world (L := L) R) (lift m).
Proof.
  intros Hm [l w] r s'. unfold lift. simpl.
  destruct (m w) as [r1 w1] eqn:Hmw. intros [= _ <-].
  unfold on_world. simpl. eapply Hm; eassumption.
Qed.

Lemma preserves_locals : preserves (on_world (L := L) R) locals.
Proof. apply preserves_gets. apply _. Qed.

Lemma preserves_set_locals (f : L -> L) :
  preserves (on_world (L := L) R) (set_locals f).
Proof.
  apply preserves_modify. intros s. unfold on_world. simpl. reflexivity.
Qed.

Lemma preserves_with_frame {A : Type} (l0 : L) (m : M (L * world) A) :
  preserves (on_world R) m -> preserves R (with_frame l0 m).
Proof.
  intros Hm w r w'. unfold with_frame.
  destruct (m (l0, w)) as [r1 s1] eqn:Hmw. intros [= _ <-].
  apply (Hm _ _ _ Hmw).
Qed.

End PreservesFrame.

Lemma last_write_app (z0 : Z) (e1 e2 : list event) :
  last_write z0 (e1 ++ e2) = last_write (last_write z0 e1) e2.
Proof. unfold last_write. apply foldl_app. Qed.

#[global] Instance rel_preorder K P D : PreOrder (rel K P D).
Proof.
  split.
  - intros w. split; auto.
    exists []. rewrite app_nil_r. auto.
  - intros w1 w2 w3 [c1 (e1 & t1 & p1 & r1) tc1 d1] [c2 (e2 & t2 & p2 & r2) tc2 d2].
    split.
    + intros k Hk. rewrite c2, c1; auto.
    + exists (e1 ++ e2)%list. rewrite t2, t1, app_assoc, forallb_app, p1, p2.
      rewrite last_write_app, <- r1. auto.
    + congruence.
    + intros HD. rewrite d2, d1; auto.
Qed.

Lemma rel_same K P D (w w' : world) :
  cfg w' = cfg w -> trace w' = trace w -> retcode w' = retcode w ->
  testcases w' = testcases w -> dirs w' = dirs w -> rel K P D w w'.
Proof.
  intros Hc Ht Hr Htc Hd. split; try congruence.
  exists []. rewrite app_nil_r. auto.
Qed.

Lemma startswith_app (p s : string) : startswith p (p ++ s) = true.
Proof.
  unfold startswith. induction p as [|c p IH]; simpl.
  - destruct s; reflexivity.
  - destruct (ascii_dec c c); [exact IH | congruence].
Qed.

Section RelPrims.

Variable E : env.
Variables (K : string -> bool) (P : event -> bool) (D : bool).
Hypothesis Plog : forall l m, P (ELog l m) = true.

Local Abbreviation R := (rel K P D).

Lemma preserves_cfg_get k : preserves R (cfg_get k).
Proof. apply preserves_gets. apply _. Qed.

Lemma preserves_cfg_set k v : K k = true -> preserves R (cfg_set k v).
Proof.
  intros HK. apply preserves_modify. intros w. split; simpl; auto.
  - intros k' Hk'. apply lookup_insert_ne. congruence.
  - exists []. rewrite app_nil_r. auto.
Qed.

Lemma preserves_get_retcode : preserves R get_retcode.
Proof. apply preserves_gets. apply _. Qed.

Lemma preserves_set_retcode z :
  P (ESetRetcode z) = true -> preserves R (set_retcode z).
Proof.
  intros HP w r w' [= _ <-]. split; simpl; auto.
  exists [ESetRetcode z]. simpl. rewrite HP. auto.
Qed.

Lemma preserves_logging l m : preserves R (logging l m).
Proof.
  apply preserves_modify. intros w. split; simpl; auto.
  exists [ELog l m]. simpl. rewrite Plog. auto.
Qed.

Lemma preserves_enter n : P (EEnter n) = true -> preserves R (enter n).
Proof.
  intros HP. apply preserves_modify. intros w. split; simpl; auto.
  exists [EEnter n]. simpl. rewrite HP. auto.
Qed.

Lemma preserves_time_time : preserves R (time_time E).
Proof. intros w r w' [= _ <-]. apply rel_same; reflexivity. Qed.

Lemma preserves_artifact n : preserves R (artifact n).
Proof.
  unfold artifact. apply preserves_bind; [apply _ | apply preserves_cfg_get |].
  intros [| | |d| | | |]; first [apply preserves_ret | apply preserves_raise]; apply _.
Qed.

Lemma preserves_path_of what v : preserves R (path_of what v).
Proof.
  destruct v; first [apply preserves_ret | apply preserves_raise]; apply _.
Qed.

Lemma preserves_write_file p c :
  D = false -> (P (EWrite p c) = true) -> preserves R (write_file p c).
Proof.
  intros HD HP w r w'. unfold write_file, mbind, M_bind, bind, gets. simpl.
  destruct (dirs w !! p.1); intros [= _ <-].
  - split; simpl; auto.
    + exists [EWrite p c]. simpl. rewrite HP. auto.
    + congruence.
  - reflexivity.
Qed.

Lemma preserves_report_results p1 c1 p2 c2 :
  D = false -> (forall p c, P (EWrite p c) = true) ->
  preserves R (report_results p1 c1 p2 c2).
Proof.
  intros HD HP. apply preserves_bind; [apply _ | |intros _];
    apply preserves_write_file; auto.
Qed.

Lemma preserves_purge prefix : D = false -> preserves R (purge prefix).
Proof.
  intros HD w r w'. unfold purge, try_except, mbind, M_bind, bind, cfg_get, gets.
  simpl. destruct (dict_get "output_dir" (cfg w)); simpl;
    try (intros [= _ <-]; reflexivity).
  destruct (dirs w !! s); simpl; intros [= _ <-]; [|reflexivity].
  split; simpl; auto.
  - exists []. rewrite app_nil_r. auto.
  - congruence.
Qed.

Lemma preserves_write_rc : preserves R (write_rc E).
Proof.
  intros w r w'. unfold write_rc, mbind, M_bind, bind, cfg_get, gets. simpl.
  destruct (dict_get "rc" (cfg w)); intros [= _ <-];
    apply rel_same; reflexivity.
Qed.

Lemma preserves_set_state_options st : preserves R (set_state_options E st).
Proof.
  induction st as [|[k v] st IH]; simpl.
  - apply preserves_ret. apply _.
  - apply preserves_bind; [apply _ | | intros _; exact IH].
    destruct v; try apply preserves_ret; try apply _;
      (apply preserves_bind; [apply _ | apply preserves_logging | intros _;
       apply preserves_modify; intros w; apply rel_same; reflexivity]).
Qed.

Lemma foldl_insert_other (st : list (string * value)) (c : gmap string value) k :
  Forall (fun kv => K kv.1 = true) st -> K k = false ->
  foldl (fun c kv => <[kv.1 := kv.2]> c) c st !! k = c !! k.
Proof.
  intros Hst Hk. revert c. induction Hst as [|[k' v'] st Hk' _ IH]; intros c.
  - reflexivity.
  - simpl. rewrite IH. apply lookup_insert_ne. simpl in Hk'. congruence.
Qed.

Lemma preserves_save_state st :
  Forall (fun kv => K kv.1 = true) st -> preserves R (save_state E st).
Proof.
  intros Hst. unfold save_state.
  apply preserves_bind; [apply _ | | intros _].
  - apply preserves_modify. intros w. split; simpl; auto.
    + intros k Hk. apply foldl_insert_other; auto.
    + exists []. rewrite app_nil_r. auto.
  - apply preserves_bind; [apply _ | apply preserves_cfg_get | intros v].
    destruct (negb (truthy v)); [apply preserves_ret; apply _|].
    apply preserves_bind; [apply _ | | intros _].
    + apply preserves_modify. intros w.
      destruct (has_section "state" (parser w)); [reflexivity|].
      apply rel_same; reflexivity.
    + apply preserves_bind; [apply _ | apply preserves_set_state_options |
                              intros _; apply preserves_write_rc].
Qed.

End RelPrims.

Lemma stage_keys_prefixed (s : string) :
  stage_keys ("mergerepo_" ++ s) = true /\ stage_keys ("mergehead_" ++ s) = true
  /\ stage_keys ("localpatch_" ++ s) = true
  /\ stage_keys ("patchwork_" ++ s) = true /\ stage_keys ("jobid_" ++ s) = true.
Proof.
  repeat split; unfold stage_keys; rewrite startswith_app;
    rewrite ?orb_true_r; reflexivity.
Qed.

Ltac stage_key :=
  first [ reflexivity
        | apply (proj1 (stage_keys_prefixed _))
        | apply (proj1 (proj2 (stage_keys_prefixed _)))
        | apply (proj1 (proj2 (proj2 (stage_keys_prefixed _))))
        | apply (proj1 (proj2 (proj2 (proj2 (stage_keys_prefixed _)))))
        | apply (proj2 (proj2 (proj2 (proj2 (stage_keys_prefixed _))))) ].

Ltac pres_side :=
  first [ reflexivity | assumption | (intros; reflexivity) | (intros; assumption)
        | solve [auto] ].

(** Prove [preserves (rel ...) m] by following the structure of [m]. *)
Ltac pres :=
  lazymatch goal with
  | |- PreOrder _ => apply _
  | |- preserves _ (let _ := _ in _) => cbv zeta; pres
  | |- forall _, _ => intros ?; cbv beta; pres
  | |- preserves _ (mret _) => apply preserves_ret; pres
  | |- preserves _ (ret _) => apply preserves_ret; pres
  | |- preserves _ (raise _) => apply preserves_raise; pres
  | |- preserves _ (call _) => apply preserves_call; pres
  | |- preserves _ (gets _) => apply preserves_gets; pres
  | |- preserves _ locals => apply preserves_locals; pres
  | |- preserves _ (set_locals _) => apply preserves_set_locals; pres
  | |- preserves _ (append_report _) => apply preserves_set_locals; pres
  | |- preserves _ (_ ≫= _) => apply preserves_bind; pres
  | |- preserves _ (try_except _ _) => apply preserves_try; pres
  | |- preserves _ (lift _) => apply preserves_lift; pres
  | |- preserves _ (with_frame _ _) => apply preserves_with_frame; pres
  | |- preserves _ (cfg_get _) => apply preserves_cfg_get
  | |- preserves _ (cfg_set _ _) => apply preserves_cfg_set; stage_key
  | |- preserves _ get_retcode => apply preserves_get_retcode
  | |- preserves _ (set_retcode _) => apply preserves_set_retcode; pres_side
  | |- preserves _ (logging _ _) => apply preserves_logging; pres_side
  | |- preserves _ (enter _) => apply preserves_enter; pres_side
  | |- preserves _ (time_time _) => apply preserves_time_time
  | |- preserves _ (artifact _) => apply preserves_artifact
  | |- preserves _ (path_of _ _) => apply preserves_path_of
  | |- preserves _ (write_file _ _) => apply preserves_write_file; pres_side
  | |- preserves _ (report_results _ _ _ _) =>
      apply preserves_report_results; pres_side
  | |- preserves _ (purge _) => apply preserves_purge; pres_side
  | |- preserves _ (write_rc _) => apply preserves_write_rc
  | |- preserves _ (save_state _ _) =>
      apply preserves_save_state;
      [pres_side | repeat constructor; simpl; stage_key]
  | |- preserves _ (modify (fun w => with_files _ w)) =>
      apply preserves_modify; intros ?; apply rel_same; reflexivity
  | |- preserves _ (modify (fun w => with_parser _ w)) =>
      apply preserves_modify; intros ?; apply rel_same; reflexivity
  | |- preserves _ (if ?b then _ else _) => destruct b; pres
  | |- preserves _ (match ?v with _ => _ end) => destruct v; pres
  | |- match (if ?b then _ else _) with Some _ => _ | None => True end =>
      destruct b; pres
  | |- match Some _ with Some _ => _ | None => True end => cbv iota; pres
  | |- match None with Some _ => _ | None => True end => exact I
  | |- match (match ?c with _ => _ end) with Some _ => _ | None => True end =>
      destruct c; pres
  | |- _ => eauto
  end.

Section StageFrames.

Variable E : env.
Variables (P : event -> bool).
Hypothesis Plog : forall l m, P (ELog l m) = true.

Lemma preserves_run_jobs_loop D jobs idx :
  P (ESetRetcode SKT_ERROR) = true ->
  preserves (rel stage_keys P D) (run_jobs_loop E jobs idx).
Proof.
  intros HP. revert idx. induction jobs as [|job jobs IH]; intros idx; simpl.
  - pres.
  - pres.
Qed.

Hypothesis Pset : forall z, P (ESetRetcode z) = true.
Hypothesis Pwrite : forall p c, P (EWrite p c) = true.

Local Abbreviation R := (rel stage_keys P false).

Lemma after_enter {A : Type} n (body : M world A) :
  preserves R body ->
  forall w r w', (enter n;; body) w = (r, w') ->
                 R (with_trace (trace w ++ [EEnter n]) w) w'.
Proof. intros Hb w r w' H. exact (Hb _ _ _ H). Qed.

Lemma preserves_merge_ref_loop p1 p2 mbs :
  preserves (on_world R) (merge_ref_loop E p1 p2 mbs).
Proof. induction mbs as [|mb mbs IH]; simpl; pres. Qed.

Lemma preserves_patch_loop ps : preserves (on_world R) (patch_loop E ps).
Proof. induction ps as [|p ps IH]; simpl; pres. Qed.

Lemma preserves_pw_loop ps : preserves (on_world R) (pw_loop E ps).
Proof. induction ps as [|p ps IH]; simpl; pres. Qed.

Lemma cmd_merge_func_rel w r w' :
  cmd_merge_func E w = (r, w') ->
  R (with_trace (trace w ++ [EEnter "cmd_merge"]) w) w'.
Proof.
  apply after_enter.
  pose proof preserves_merge_ref_loop. pose proof preserves_patch_loop.
  pose proof preserves_pw_loop.
  unfold merge_try, merge_patch_failed. pres.
Qed.

Lemma cmd_build_func_rel w r w' :
  cmd_build_func E w = (r, w') ->
  R (with_trace (trace w ++ [EEnter "cmd_build"]) w) w'.
Proof. apply after_enter. pres. Qed.

Lemma cmd_publish_func_rel w r w' :
  cmd_publish_func E w = (r, w') ->
  R (with_trace (trace w ++ [EEnter "cmd_publish"]) w) w'.
Proof. apply after_enter. pres. Qed.

Lemma cmd_run_func_rel w r w' :
  cmd_run_func E w = (r, w') ->
  R (with_trace (trace w ++ [EEnter "cmd_run"]) w) w'.
Proof.
  apply after_enter. pose proof (preserves_run_jobs_loop false). pres.
Qed.

End StageFrames.

(** * The stages *)

Lemma wrapper_off E name func w :
  truthy (dict_get "junit" (cfg w)) = false -> wrapper E name func w = func w.
Proof.
  intros H. unfold wrapper, mbind, M_bind, bind, cfg_get, gets. simpl.
  rewrite H. reflexivity.
Qed.

Lemma wrapper_on E name func w :
  truthy (dict_get "junit" (cfg w)) = true ->
  wrapper E name func w =
  match func (ticked w) with
  | (Ret _, w1) =>
      (Ret tt, recorded E (clock E (ticks w)) (fresh_testcase name) w1)
  | (Raise e, w1) =>
      if is_Exception e then
        (Ret tt, recorded E (clock E (ticks w))
                          (add_error_info (format_exc E e) (fresh_testcase name))
                          (caught E e w1))
      else (Raise e, w1)
  end.
Proof.
  intros H. unfold wrapper, mbind, M_bind, bind, cfg_get, gets. simpl.
  rewrite H. unfold try_except, ticked. simpl.
  destruct (func _) as [[[]|e] w1]; simpl; [reflexivity|].
  destruct (is_Exception e); simpl; [|reflexivity].
  unfold recorded, caught. simpl. rewrite <- app_assoc. reflexivity.
Qed.

Lemma recorded_error E tstart t w1 :
  SKT_ERROR <= retcode w1 ->
  exists tc,
    testcases (recorded E tstart t w1) = (testcases w1 ++ [tc])%list
    /\ tc_name tc = tc_name t
    /\ tc_error tc = Some (infrastructure_issue (retcode w1))
    /\ tc_failure tc = tc_failure t.
Proof.
  intros Hrc. eexists. split; [reflexivity|]. unfold classify.
  destruct (Z.eqb_spec (retcode w1) SKT_FAIL) as [Heq|_].
  - unfold SKT_FAIL, SKT_ERROR in *. lia.
  - destruct (Z.leb_spec SKT_ERROR (retcode w1)); [|lia]. auto.
Qed.

(** The [except Exception] clause at work. *)
Lemma wrapper_catches E name func w e w1 :
  truthy (dict_get "junit" (cfg w)) = true ->
  func (ticked w) = (Raise e, w1) -> is_Exception e = true ->
  exists w' tc,
    wrapper E name func w = (Ret tt, w')
    /\ retcode w' = SKT_ERROR
    /\ trace w'
       = (trace w1
          ++ [ELog "error"
                   ("Unexpected exception caught, probably an "
                    ++ "infrastructure failure or skt bug: "
                    ++ format_exc E e);
              ESetRetcode SKT_ERROR])%list
    /\ testcases w' = (testcases w1 ++ [tc])%list
    /\ tc_name tc = name
    /\ tc_error tc = Some (infrastructure_issue SKT_ERROR).
Proof.
  intros Hj Hf He. rewrite (wrapper_on _ _ _ _ Hj), Hf, He.
  destruct (recorded_error E (clock E (ticks w))
              (add_error_info (format_exc E e) (fresh_testcase name))
              (caught E e w1)) as (tc & Htc & Hn & Herr & _);
    [simpl; reflexivity|].
  exists (recorded E (clock E (ticks w))
                   (add_error_info (format_exc E e) (fresh_testcase name))
                   (caught E e w1)), tc.
  repeat split; auto.
Qed.

(** C1, as the code has it.  Without JUnit collection the wrapper is the
    stage function itself, so a fault of the stage leaves the wrapped call.
    With JUnit collection a fault that derives from [Exception] is caught:
    the wrapped call returns normally, the traceback is logged, [retcode]
    is [SKT_ERROR] and the test case appended for the stage carries the
    error; the only faults that still leave the wrapped call are those
    outside [Exception]. *)
Theorem wrapper_catches_faults_under_junit (E : env) (name : string)
    (func : M world unit) (w : world) :
  (truthy (dict_get "junit" (cfg w)) = false ->
   wrapper E name func w = func w)
  /\ (truthy (dict_get "junit" (cfg w)) = true ->
      (forall e w1,
          func (ticked w) = (Raise e, w1) -> is_Exception e = true ->
          exists w' tc,
            wrapper E name func w = (Ret tt, w')
            /\ retcode w' = SKT_ERROR
            /\ trace w'
               = (trace w1
                  ++ [ELog "error"
                           ("Unexpected exception caught, probably an "
                            ++ "infrastructure failure or skt bug: "
                            ++ format_exc E e);
                      ESetRetcode SKT_ERROR])%list
            /\ testcases w' = (testcases w1 ++ [tc])%list
            /\ tc_name tc = name
            /\ tc_error tc = Some (infrastructure_issue SKT_ERROR))
      /\ (forall r w',
             wrapper E name func w = (r, w') ->
             r = Ret tt \/ exists e, r = Raise e /\ is_Exception e = false)).
Proof.
  split; [apply wrapper_off|]. intros Hj. split.
  - intros e w1 Hf He. exact (wrapper_catches E name func w e w1 Hj Hf He).
  - intros r w'. rewrite (wrapper_on _ _ _ _ Hj).
    destruct (func (ticked w)) as [[[]|e] w1].
    + intros [= <- _]. auto.
    + destruct (is_Exception e) eqn:He; intros [= <- _]; eauto.
Qed.

Lemma wrapper_catches_faults_witness :
  exists w' tc,
    cmd_merge env_checkout_fails world_junit = (Ret tt, w')
    /\ retcode w' = SKT_ERROR
    /\ testcases w' = [tc]
    /\ tc_error tc = Some (infrastructure_issue SKT_ERROR).
Proof.
  destruct (wrapper_catches_faults_under_junit
              env_checkout_fails "cmd_merge"
              (cmd_merge_func env_checkout_fails) world_junit) as [_ H].
  destruct (H eq_refl) as [H1 _].
  destruct (H1 (Exn OSError "git clone failed")
               (with_trace [EEnter "cmd_merge"] (ticked world_junit))
               eq_refl eq_refl)
    as (w' & tc & Hw & Hrc & _ & Htc & _ & Herr).
  exists w', tc. repeat split; assumption.
Defined.

(** Counterexample to C1 as stated: JUnit collection is off, the checkout of
    the merge stage raises, and the wrapped call raises the same fault with
    [retcode] left at [SKT_SUCCESS]. *)
Lemma wrapper_reraises_without_junit :
  cmd_merge env_checkout_fails world_no_junit
  = (Raise (Exn OSError "git clone failed"),
     with_trace [EEnter "cmd_merge"] world_no_junit)
  /\ retcode (cmd_merge env_checkout_fails world_no_junit).2 = SKT_SUCCESS.
Proof. split; vm_compute; reflexivity. Qed.

Lemma cmd_publish_func_missing_tarpkg E w :
  truthy (dict_get "tarpkg" (cfg w)) = false ->
  getpublisher E (dict_get "publisher" (cfg w)) = Ret tt ->
  cmd_publish_func E w
  = (Raise missing_tarpkg, with_trace (trace w ++ [EEnter "cmd_publish"]) w).
Proof.
  intros Ht Hp.
  unfold cmd_publish_func, mbind, M_bind, bind, enter, emit, modify, cfg_get,
    gets, call. simpl. rewrite Hp, Ht. reflexivity.
Qed.

(** C6, as the code has it.  When [cfg] holds no package path and the
    publisher can be built, the publish stage raises its "missing tarpkg"
    fault before anything is published or persisted.  Without JUnit
    collection that fault leaves the wrapped call and [retcode] keeps its
    value; with JUnit collection the wrapper catches it, sets [retcode] to
    [SKT_ERROR], records a test case with an error and returns normally. *)
Theorem publish_without_tarpkg (E : env) (w : world) :
  truthy (dict_get "tarpkg" (cfg w)) = false ->
  getpublisher E (dict_get "publisher" (cfg w)) = Ret tt ->
  (truthy (dict_get "junit" (cfg w)) = false ->
   cmd_publish E w
   = (Raise missing_tarpkg, with_trace (trace w ++ [EEnter "cmd_publish"]) w))
  /\ (truthy (dict_get "junit" (cfg w)) = true ->
      exists w' tc,
        cmd_publish E w = (Ret tt, w')
        /\ retcode w' = SKT_ERROR
        /\ testcases w' = (testcases w ++ [tc])%list
        /\ tc_name tc = "cmd_publish"
        /\ tc_error tc = Some (infrastructure_issue SKT_ERROR)
        /\ cfg w' = cfg w /\ rcfiles w' = rcfiles w /\ dirs w' = dirs w).
Proof.
  intros Ht Hp. split; intros Hj; unfold cmd_publish.
  - rewrite wrapper_off by exact Hj.
    apply cmd_publish_func_missing_tarpkg; assumption.
  - destruct (wrapper_catches E "cmd_publish" (cmd_publish_func E) w
                missing_tarpkg
                (with_trace (trace (ticked w) ++ [EEnter "cmd_publish"])
                            (ticked w)) Hj)
      as (w' & tc & Hw & Hrc & _ & Htc & Hn & Herr).
    + apply cmd_publish_func_missing_tarpkg; assumption.
    + reflexivity.
    + exists w', tc. rewrite Hw. repeat split; auto.
      all: rewrite (wrapper_on _ _ _ _ Hj) in Hw;
        rewrite cmd_publish_func_missing_tarpkg in Hw by assumption;
        simpl in Hw; injection Hw as <-; reflexivity.
Qed.

Lemma publish_without_tarpkg_witness :
  cmd_publish env_ok world_publisher
  = (Raise missing_tarpkg, with_trace [EEnter "cmd_publish"] world_publisher).
Proof.
  exact (proj1 (publish_without_tarpkg env_ok world_publisher eq_refl eq_refl)
               eq_refl).
Defined.

(** Counterexample to C6 as stated: JUnit collection is requested and no
    package path is known; the publish stage does not abort, the wrapped
    call returns normally and the outcome is classified [SKT_ERROR], with
    an error recorded in the test case of the stage. *)
Lemma publish_without_tarpkg_is_error_under_junit :
  (cmd_publish env_ok world_junit_publisher).1 = Ret tt
  /\ retcode (cmd_publish env_ok world_junit_publisher).2 = SKT_ERROR
  /\ tc_error <$> testcases (cmd_publish env_ok world_junit_publisher).2
     = [Some (infrastructure_issue SKT_ERROR)].
Proof. repeat split; vm_compute; reflexivity. Qed.

Lemma entered_app e1 e2 : entered (e1 ++ e2) = (entered e1 ++ entered e2)%list.
Proof. unfold entered. apply omap_app. Qed.

Lemma entered_body evs : forallb ev_body evs = true -> entered evs = [].
Proof.
  induction evs as [|e evs IH]; simpl; [reflexivity|].
  intros [He Hevs]%andb_true_iff. destruct e; simpl in *;
    try discriminate; auto.
Qed.

Lemma ran_trans n1 n2 w w1 w2 :
  ran n1 w w1 -> ran n2 w1 w2 -> ran (n1 ++ n2) w w2.
Proof.
  intros [(e1 & t1 & h1) [j1 k1]] [(e2 & t2 & h2) [j2 k2]]. split.
  - exists (e1 ++ e2)%list. rewrite t2, t1, app_assoc, entered_app, h1, h2. auto.
  - split; congruence.
Qed.

Lemma dict_get_rel K P D w w' k :
  rel K P D w w' -> K k = false -> dict_get k (cfg w') = dict_get k (cfg w).
Proof. intros [Hc _ _ _] Hk. unfold dict_get. rewrite Hc; auto. Qed.

Lemma ran_of_rel D n w w' :
  rel stage_keys ev_body D (with_trace (trace w ++ [EEnter n]) w) w' ->
  ran [n] w w'.
Proof.
  intros Hrel. split; [|split].
  - destruct Hrel as [_ (evs & Ht & Hp & _) _ _]. simpl in Ht.
    exists (EEnter n :: evs). rewrite Ht, <- app_assoc. split; [reflexivity|].
    simpl. rewrite entered_body; auto.
  - apply (dict_get_rel _ _ _ _ _ "junit" Hrel). reflexivity.
  - apply (dict_get_rel _ _ _ _ _ "wait" Hrel). reflexivity.
Qed.

Lemma ev_body_log l m : ev_body (ELog l m) = true.
Proof. reflexivity. Qed.

Lemma ran_ext n w1 w2 w1' w2' extra :
  ran n w1 w2 ->
  trace w1 = trace w1' -> cfg w1 = cfg w1' ->
  trace w2' = (trace w2 ++ extra)%list -> entered extra = [] ->
  cfg w2' = cfg w2 ->
  ran n w1' w2'.
Proof.
  intros [(evs & Ht & He) [Hj Hw]] T1 C1 T2 Hx C2. split; [|split].
  - exists (evs ++ extra)%list. rewrite T2, Ht, T1, app_assoc. split; [reflexivity|].
    rewrite entered_app, He, Hx, app_nil_r. reflexivity.
  - rewrite C2, Hj, C1. reflexivity.
  - rewrite C2, Hw, C1. reflexivity.
Qed.

(** A wrapped stage enters its function once; under JUnit collection it
    returns unless the fault is outside [Exception]. *)
Lemma wrapper_ran E name func w r w' :
  (forall w r w', func w = (r, w') ->
     rel stage_keys ev_body false (with_trace (trace w ++ [EEnter name]) w) w') ->
  wrapper E name func w = (r, w') ->
  ran [name] w w'
  /\ (truthy (dict_get "junit" (cfg w)) = true -> returns_or_escapes r).
Proof.
  intros Hfunc. destruct (truthy (dict_get "junit" (cfg w))) eqn:Hj.
  - rewrite (wrapper_on _ _ _ _ Hj).
    destruct (func (ticked w)) as [[[]|e] w1] eqn:Hf;
      apply Hfunc, (ran_of_rel false) in Hf.
    + intros [= <- <-]. split; [|exact (fun _ => I)].
      apply (ran_ext _ _ _ _ _ [] Hf); try reflexivity.
      rewrite app_nil_r. reflexivity.
    + destruct (is_Exception e) eqn:Hex; intros [= <- <-];
        (split; [|intros _; exact Hex || exact I]).
      * eapply (ran_ext _ _ _ _ _ _ Hf); try reflexivity.
      * apply (ran_ext _ _ _ _ _ [] Hf); try reflexivity.
        rewrite app_nil_r. reflexivity.
  - rewrite (wrapper_off _ _ _ _ Hj). intros Hf. split; [|discriminate].
    apply Hfunc, (ran_of_rel false) in Hf. exact Hf.
Qed.

Lemma cmd_merge_ran E w r w' :
  cmd_merge E w = (r, w') ->
  ran ["cmd_merge"] w w'
  /\ (truthy (dict_get "junit" (cfg w)) = true -> returns_or_escapes r).
Proof.
  intros H. unfold cmd_merge in H. refine (wrapper_ran _ _ _ _ _ _ _ H).
  exact (cmd_merge_func_rel E ev_body ev_body_log (fun _ => eq_refl)
                            (fun _ _ => eq_refl)).
Qed.

Lemma cmd_build_ran E w r w' :
  cmd_build E w = (r, w') ->
  ran ["cmd_build"] w w'
  /\ (truthy (dict_get "junit" (cfg w)) = true -> returns_or_escapes r).
Proof.
  intros H. unfold cmd_build in H. refine (wrapper_ran _ _ _ _ _ _ _ H).
  exact (cmd_build_func_rel E ev_body ev_body_log (fun _ => eq_refl)
                            (fun _ _ => eq_refl)).
Qed.

Lemma cmd_publish_ran E w r w' :
  cmd_publish E w = (r, w') ->
  ran ["cmd_publish"] w w'
  /\ (truthy (dict_get "junit" (cfg w)) = true -> returns_or_escapes r).
Proof.
  intros H. unfold cmd_publish in H. refine (wrapper_ran _ _ _ _ _ _ _ H).
  exact (cmd_publish_func_rel E ev_body ev_body_log).
Qed.

Lemma cmd_run_ran E w r w' :
  cmd_run E w = (r, w') ->
  ran ["cmd_run"] w w'
  /\ (truthy (dict_get "junit" (cfg w)) = true -> returns_or_escapes r).
Proof.
  intros H. unfold cmd_run in H. refine (wrapper_ran _ _ _ _ _ _ _ H).
  exact (cmd_run_func_rel E ev_body ev_body_log (fun _ => eq_refl)
                            (fun _ _ => eq_refl)).
Qed.

Lemma preserves_with_dirs K P d :
  preserves (rel K P false) (modify (with_dirs d)).
Proof.
  apply preserves_modify. intros w. split; simpl; auto; [|discriminate].
  exists []. rewrite app_nil_r. auto.
Qed.

Lemma cmd_report_ran E w r w' :
  cmd_report E w = (r, w') -> ran ["cmd_report"] w w'.
Proof.
  intros H. apply (ran_of_rel false).
  refine (after_enter ev_body _ _ _ _ _ _ H). pres.
Qed.

Lemma cmd_cleanup_ran E w r w' :
  cmd_cleanup E w = (r, w') -> ran ["cmd_cleanup"] w w'.
Proof.
  intros H. apply (ran_of_rel false).
  refine (after_enter ev_body _ _ _ _ _ _ H).
  pose proof (preserves_with_dirs stage_keys ev_body).
  unfold os_unlink, shutil_rmtree. pres.
Qed.

Lemma bind_inv {S A B : Type} (m : M S A) (f : A -> M S B) s r s' :
  (m ≫= f) s = (r, s') ->
  (exists e, m s = (Raise e, s') /\ r = Raise e)
  \/ (exists a s1, m s = (Ret a, s1) /\ f a s1 = (r, s')).
Proof.
  unfold mbind, M_bind, bind. destruct (m s) as [[a|e] s1].
  - intros H. right. eauto.
  - intros [= <- <-]. left. eauto.
Qed.

Lemma escape_absurd {A B : Type} (e : exn) (P : Prop) :
  returns_or_escapes (Raise (A := A) e) ->
  returns_or_fails (Raise (A := B) e) -> P.
Proof. simpl. congruence. Qed.

(** C4, as the code has it.  [cmd_all] enters merge, build, publish and run
    in that order, then report when [cfg] holds a true [wait], then cleanup,
    and never looks at [retcode] in between: the functions entered are
    always a prefix of that list, and the whole list when the driver
    returns.  A later stage is skipped only because an earlier call raised.
    With JUnit collection requested, and unless a fault outside [Exception]
    occurs, the four wrapped stages all run whatever their outcome, and so
    does report when [wait] is set; a fault of report or cleanup still ends
    the driver. *)
Theorem cmd_all_stage_order (E : env) (w : world) (r : result unit)
    (w' : world) :
  cmd_all E w = (r, w') ->
  exists evs,
    trace w' = (trace w ++ evs)%list
    /\ entered evs `prefix_of` all_stages (truthy (dict_get "wait" (cfg w)))
    /\ (r = Ret tt ->
        entered evs = all_stages (truthy (dict_get "wait" (cfg w))))
    /\ (truthy (dict_get "junit" (cfg w)) = true -> returns_or_fails r ->
        (wrapped_stages
         ++ (if truthy (dict_get "wait" (cfg w)) then ["cmd_report"] else []))%list
        `prefix_of` entered evs).
Proof.
  unfold cmd_all. intros H.
  (* merge *)
  apply bind_inv in H as [(e & Hm & ->)|([] & w1 & Hm & H)];
    apply cmd_merge_ran in Hm as [R1 J1].
  { destruct R1 as [(evs & Ht & He) _]. exists evs. rewrite He.
    split; [exact Ht|]. split; [|split].
    - eexists; reflexivity.
    - discriminate.
    - intros Hj Hr. exact (escape_absurd e _ (J1 Hj) Hr). }
  (* build *)
  apply bind_inv in H as [(e & Hb & ->)|([] & w2 & Hb & H)];
    apply cmd_build_ran in Hb as [R2 J2];
    pose proof (ran_trans _ _ _ _ _ R1 R2) as R12.
  { destruct R12 as [(evs & Ht & He) _]. exists evs. rewrite He.
    split; [exact Ht|]. split; [|split].
    - eexists; reflexivity.
    - discriminate.
    - intros Hj Hr. destruct R1 as [_ [Hj1 _]]. rewrite <- Hj1 in Hj.
      exact (escape_absurd e _ (J2 Hj) Hr). }
  (* publish *)
  apply bind_inv in H as [(e & Hp & ->)|([] & w3 & Hp & H)];
    apply cmd_publish_ran in Hp as [R3 J3];
    pose proof (ran_trans _ _ _ _ _ R12 R3) as R123.
  { destruct R123 as [(evs & Ht & He) _]. exists evs. rewrite He.
    split; [exact Ht|]. split; [|split].
    - eexists; reflexivity.
    - discriminate.
    - intros Hj Hr. destruct R12 as [_ [Hj1 _]]. rewrite <- Hj1 in Hj.
      exact (escape_absurd e _ (J3 Hj) Hr). }
  (* run *)
  apply bind_inv in H as [(e & Hr & ->)|([] & w4 & Hr & H)];
    apply cmd_run_ran in Hr as [R4 J4];
    pose proof (ran_trans _ _ _ _ _ R123 R4) as R1234.
  { destruct R1234 as [(evs & Ht & He) _]. exists evs. rewrite He.
    split; [exact Ht|]. split; [|split].
    - eexists; reflexivity.
    - discriminate.
    - intros Hj Hr. destruct R123 as [_ [Hj1 _]]. rewrite <- Hj1 in Hj.
      exact (escape_absurd e _ (J4 Hj) Hr). }
  (* report, when wait is set *)
  apply bind_inv in H as [(e & Hg & _)|(wait & w5 & Hg & H)];
    [discriminate Hg|].
  injection Hg as <- <-.
  assert (Hwait : dict_get "wait" (cfg w4) = dict_get "wait" (cfg w))
    by apply R1234.
  rewrite Hwait in H. simpl in R1234.
  destruct (truthy (dict_get "wait" (cfg w))).
  - apply bind_inv in H as [(e & Hrep & ->)|([] & w6 & Hrep & H)];
      apply cmd_report_ran in Hrep;
      pose proof (ran_trans _ _ _ _ _ R1234 Hrep) as R5.
    { destruct R5 as [(evs & Ht & He) _]. exists evs. rewrite He.
      split; [exact Ht|]. split; [|split].
      - exists ["cmd_cleanup"]. reflexivity.
      - discriminate.
      - intros _ _. exists []. reflexivity. }
    apply cmd_cleanup_ran in H.
    destruct (ran_trans _ _ _ _ _ R5 H) as [(evs & Ht & He) _].
    exists evs. rewrite He. split; [exact Ht|]. split; [|split].
    + exists []. reflexivity.
    + reflexivity.
    + intros _ _. exists ["cmd_cleanup"]. reflexivity.
  - apply bind_inv in H as [(e & Hrep & _)|([] & w6 & Hrep & H)];
      [discriminate Hrep|].
    injection Hrep as <-.
    apply cmd_cleanup_ran in H.
    destruct (ran_trans _ _ _ _ _ R1234 H) as [(evs & Ht & He) _].
    exists evs. rewrite He. split; [exact Ht|]. split; [|split].
    + exists []. reflexivity.
    + reflexivity.
    + intros _ _. exists ["cmd_cleanup"]. reflexivity.
Qed.

Lemma cmd_all_stage_order_witness :
  exists evs,
    trace (cmd_all env_build_fails world_all_junit).2 = ([] ++ evs)%list
    /\ entered evs `prefix_of` all_stages false
    /\ ((cmd_all env_build_fails world_all_junit).1 = Ret tt ->
        entered evs = all_stages false)
    /\ (true = true ->
        returns_or_fails (cmd_all env_build_fails world_all_junit).1 ->
        (wrapped_stages ++ [])%list `prefix_of` entered evs).
Proof.
  exact (cmd_all_stage_order env_build_fails world_all_junit _ _
                             (surjective_pairing _)).
Defined.

(** Counterexample to C4 as stated: JUnit collection is off and the build
    fails on its own merits (the build tool exits nonzero, outcome FAIL).
    No package path is persisted, the publish stage raises, and the driver
    ends there: run and cleanup are never entered. *)
Lemma cmd_all_stops_after_failed_build :
  (cmd_all env_build_fails world_all).1 = Raise missing_tarpkg
  /\ retcode (cmd_all env_build_fails world_all).2 = SKT_FAIL
  /\ entered (trace (cmd_all env_build_fails world_all).2)
     = ["cmd_merge"; "cmd_build"; "cmd_publish"].
Proof. repeat split; vm_compute; reflexivity. Qed.

Lemma cmd_all_junit_runs_all :
  (cmd_all env_build_fails world_all_junit).1 = Ret tt
  /\ entered (trace (cmd_all env_build_fails world_all_junit).2) = all_stages false.
Proof. repeat split; vm_compute; reflexivity. Qed.

Lemma bind_inv_rel {S A B : Type} (R : S -> S -> Prop) (m : M S A)
    (f : A -> M S B) s r s' :
  preserves R m ->
  (m ≫= f) s = (r, s') ->
  (exists e, r = Raise e /\ m s = (Raise e, s') /\ R s s')
  \/ (exists a s1, m s = (Ret a, s1) /\ R s s1 /\ f a s1 = (r, s')).
Proof.
  intros Hm H. apply bind_inv in H as [(e & H & ->)|(a & s1 & H & Hf)].
  - left. exists e. eauto.
  - right. exists a, s1. eauto.
Qed.

Lemma rel_weaken K P P' D D' w w' :
  (forall e, P e = true -> P' e = true) -> (D' = true -> D = true) ->
  rel K P D w w' -> rel K P' D' w w'.
Proof.
  intros HP HD [Hc (evs & Ht & Hp & Hr) Htc Hd]. split; auto.
  exists evs. repeat split; auto.
  rewrite forallb_forall in *. auto.
Qed.





Lemma write_over_fresh s : write_over "" s = s.
Proof.
  unfold write_over.
  assert (H : forall n, drop_str n "" = "") by (intros []; reflexivity).
  rewrite H. induction s as [|c s IH]; [reflexivity|].
  change (String c s ++ "") with (String c (s ++ "")). rewrite IH. reflexivity.
Qed.

Lemma report_results_spec d n1 c1 n2 c2 w r w' :
  n1 <> n2 ->
  report_results (d, n1) c1 (d, n2) c2 w = (r, w') ->
  match r with
  | Ret _ =>
      cfg w' = cfg w /\ retcode w' = retcode w /\ testcases w' = testcases w
      /\ (exists fs, dirs w !! d = Some fs
                     /\ (fs !! n1 = None -> fs !! n2 = None ->
                         pair_written d n1 c1 n2 c2 w w'))
      /\ exists t1 t2, trace w' = (trace w ++ [EWrite (d, n1) t1;
                                              EWrite (d, n2) t2])%list
  | Raise e => w' = w /\ is_PatchApplicationError e = false
               /\ dirs w !! d = None
  end.
Proof.
  intros Hn. unfold report_results, write_file, mbind, M_bind, bind, gets,
    modify, emit, raise. simpl.
  destruct (dirs w !! d) as [fs|] eqn:Hfs; simpl.
  - rewrite lookup_insert_eq. simpl. intros [= <- <-]. simpl.
    split; [reflexivity|]. split; [reflexivity|]. split; [reflexivity|]. split.
    + exists fs. split; [reflexivity|]. intros H1 H2. split; simpl.
      * rewrite <- app_assoc. reflexivity.
      * eexists. rewrite lookup_insert_eq. split; [reflexivity|].
        rewrite lookup_insert_ne, lookup_insert_eq, lookup_insert_eq by congruence.
        rewrite lookup_insert_ne by congruence.
        rewrite H1, H2. simpl. rewrite !write_over_fresh. auto.
    + rewrite <- app_assoc. eauto.
  - intros [= <- <-]. auto.
Qed.

Lemma bind_enter {A : Type} n (f : unit -> M world A) w :
  (enter n ≫= f) w = f tt (with_trace (trace w ++ [EEnter n]) w).
Proof. reflexivity. Qed.




Lemma bind_set_retcode {A : Type} z (f : unit -> M world A) w :
  (set_retcode z ≫= f) w
  = f tt (with_trace (trace w ++ [ESetRetcode z]) (with_retcode z w)).
Proof. reflexivity. Qed.

Lemma bind_call {S A B : Type} (x : result A) (f : A -> M S B) s :
  (call x ≫= f) s = match x with Ret a => f a s | Raise e => (Raise e, s) end.
Proof. destruct x; reflexivity. Qed.

Lemma bind_artifact {A : Type} n (f : string * string -> M world A) w :
  (artifact n ≫= f) w
  = match dict_get "output_dir" (cfg w) with
    | VStr d => f (d, n) w
    | _ => (Raise (Exn TypeError "output_dir"), w)
    end.
Proof.
  unfold artifact, mbind, M_bind, bind, cfg_get, gets.
  destruct (dict_get "output_dir" (cfg w)); reflexivity.
Qed.


Lemma ev_nowrite_log l m : ev_nowrite (ELog l m) = true.
Proof. reflexivity. Qed.



Lemma dict_get_eq k (c c' : gmap string value) :
  c' = c -> dict_get k c' = dict_get k c.
Proof. intros ->. reflexivity. Qed.













(** C8 at the failing input: the runner answers 3, a code above
    [SKT_ERROR], and submits no job.  The run stage returns, the final
    [retcode] is 3, inside the ERROR tier, and both [run.result] (holding
    [true]) and [run.report] are written: the test [retcode != SKT_ERROR]
    lets every code other than 2 through. *)
Lemma run_artifacts_written_above_error :
  (cmd_run env_run_above_error world_all).1 = Ret tt
  /\ retcode (cmd_run env_run_above_error world_all).2 = 3
  /\ SKT_ERROR <= retcode (cmd_run env_run_above_error world_all).2
  /\ dirs (cmd_run env_run_above_error world_all).2 !! "/w"
     = Some {["run.result" := "true"; "run.report" := ""]}.
Proof.
  split; [vm_compute; reflexivity|].
  split; [vm_compute; reflexivity|].
  split; [vm_compute; discriminate|].
  vm_compute. reflexivity.
Qed.

(** C9 at the failing input: state saving is off, the rc document still has
    a [state] section from an earlier invocation, the destructive-clean flag
    is set and the work directory is gone.  The cleanup removes the [state]
    section and rewrites the rc file although state saving is off, and the
    removal of the missing work tree raises [OSError] out of the stage. *)
Lemma cleanup_clears_state_unasked_and_faults :
  truthy (dict_get "state" (cfg world_stale_state)) = false
  /\ (cmd_cleanup env_ok world_stale_state).1 = Raise (Exn OSError "/gone")
  /\ rcfiles (cmd_cleanup env_ok world_stale_state).2 !! "/rc"
     = Some [("config", [("workdir", "/gone")])]
  /\ has_section "state" (parser (cmd_cleanup env_ok world_stale_state).2)
     = false.
Proof. repeat split; vm_compute; reflexivity. Qed.

Lemma with_frame_inv {L W A : Type} (l0 : L) (m : M (L * W) A) w r w' :
  with_frame l0 m w = (r, w') -> exists l', m (l0, w) = (r, (l', w')).
Proof.
  unfold with_frame. destruct (m (l0, w)) as [r1 [l1 w1]].
  intros [= <- <-]. eauto.
Qed.

Lemma try_except_inv {S A : Type} (m : M S A) h s r s' :
  try_except m h s = (r, s') ->
  (exists a, m s = (Ret a, s') /\ r = Ret a)
  \/ (exists e s1, m s = (Raise e, s1)
                   /\ match h e with
                      | Some k => k s1 = (r, s')
                      | None => r = Raise e /\ s' = s1
                      end).
Proof.
  unfold try_except. destruct (m s) as [[a|e] s1].
  - intros [= <- <-]. left. eauto.
  - intros H. right. exists e, s1. split; [reflexivity|].
    destruct (h e); [exact H|]. injection H as <- <-. auto.
Qed.

Lemma bind_locals {L W A : Type} (f : L -> M (L * W) A) l w :
  (locals ≫= f) (l, w) = f l (l, w).
Proof. reflexivity. Qed.

Lemma bind_set_locals {L W A : Type} (g : L -> L) (f : unit -> M (L * W) A)
    l w :
  (set_locals g ≫= f) (l, w) = f tt (g l, w).
Proof. reflexivity. Qed.

Lemma bind_append_report {A : Type} (x : string)
    (f : unit -> M (merge_locals * world) A) l w :
  (append_report x ≫= f) (l, w)
  = f tt (set_report_string (report_string l ++ x) l, w).
Proof. reflexivity. Qed.

Lemma bind_lift_cfg_get {L A : Type} k (f : value -> M (L * world) A) l w :
  (lift (cfg_get k) ≫= f) (l, w) = f (dict_get k (cfg w)) (l, w).
Proof. reflexivity. Qed.

Lemma bind_lift_set_retcode {L A : Type} z (f : unit -> M (L * world) A) l w :
  (lift (set_retcode z) ≫= f) (l, w)
  = f tt (l, with_trace (trace w ++ [ESetRetcode z]) (with_retcode z w)).
Proof. reflexivity. Qed.


Lemma lift_report_results_inv {L : Type} p1 c1 p2 c2 (l : L) w r s' :
  lift (report_results p1 c1 p2 c2) (l, w) = (r, s') ->
  exists w', s' = (l, w') /\ report_results p1 c1 p2 c2 w = (r, w').
Proof.
  unfold lift. simpl. destruct (report_results p1 c1 p2 c2 w) as [r1 w1].
  intros [= <- <-]. eauto.
Qed.














Lemma run_stage_eq E :
  run_stage E Merge = cmd_merge E /\ run_stage E Build = cmd_build E
  /\ run_stage E Publish = cmd_publish E /\ run_stage E Run = cmd_run E.
Proof. repeat split; reflexivity. Qed.






Lemma retcode_writes_app e1 e2 :
  retcode_writes (e1 ++ e2) = (retcode_writes e1 ++ retcode_writes e2)%list.
Proof. unfold retcode_writes. apply omap_app. Qed.

Lemma writes_low evs :
  forallb ev_low evs = true -> Forall (fun z => z < SKT_ERROR) (retcode_writes evs).
Proof.
  induction evs as [|e evs IH]; simpl; [constructor|].
  intros [He Hevs]%andb_true_iff. destruct e; simpl in *; auto.
  constructor; [lia|auto].
Qed.

Lemma writes_tier evs :
  forallb ev_tier evs = true ->
  Forall (fun z => SKT_ERROR <= z) (retcode_writes evs).
Proof.
  induction evs as [|e evs IH]; simpl; [constructor|].
  intros [He Hevs]%andb_true_iff. destruct e; simpl in *; auto.
  constructor; [lia|auto].
Qed.

Lemma sticks_shape (lows tl es : list Z) :
  Forall (fun z => z < SKT_ERROR) lows -> (length tl <= 1)%nat ->
  Forall (fun z => SKT_ERROR <= z) es ->
  error_sticks (lows ++ tl ++ es).
Proof.
  intros Hl Ht He i j z z' Hij Hi Hj Hz.
  rewrite Forall_lookup in Hl. rewrite Forall_lookup in He.
  destruct (decide (i < length lows)%nat) as [Hlt|Hge].
  - rewrite lookup_app_l in Hi by exact Hlt. apply Hl in Hi. lia.
  - rewrite lookup_app_r in Hj by lia.
    rewrite lookup_app_r in Hj by (destruct tl as [|? [|? ?]]; simpl in *; lia).
    apply He in Hj. exact Hj.
Qed.

Lemma last_write_tier z0 evs :
  forallb ev_tier evs = true ->
  SKT_ERROR <= z0 \/ retcode_writes evs <> [] ->
  SKT_ERROR <= last_write z0 evs.
Proof.
  revert z0. induction evs as [|e evs IH]; intros z0; simpl.
  - intros _ [H|H]; [exact H|congruence].
  - intros [He Hevs]%andb_true_iff H.
    destruct e; simpl in *; try (apply IH; [exact Hevs|exact H]).
    apply IH; [exact Hevs|]. left. lia.
Qed.

Lemma writes_low_no_error evs z :
  forallb ev_low evs = true -> z ∈ retcode_writes evs -> z < SKT_ERROR.
Proof.
  intros H Hin. apply writes_low in H. rewrite Forall_forall in H. auto.
Qed.

Lemma ev_keep_low e : ev_keep e = true -> ev_low e = true.
Proof. destruct e; simpl; auto; discriminate. Qed.

Lemma ev_keep_tier e : ev_keep e = true -> ev_tier e = true.
Proof. destruct e; simpl; auto; discriminate. Qed.

Lemma ev_error_only_tier e : ev_error_only e = true -> ev_tier e = true.
Proof.
  destruct e; simpl; auto. intros ->%Z.eqb_eq. reflexivity.
Qed.

Lemma ev_low_body e : ev_low e = true -> ev_body e = true.
Proof. destruct e; simpl; auto. Qed.

Lemma ev_tier_body e : ev_tier e = true -> ev_body e = true.
Proof. destruct e; simpl; auto. Qed.

Lemma Rkeep_low w w' : Rkeep w w' -> Rlow w w'.
Proof. apply rel_weaken; auto using ev_keep_low. Qed.

Lemma Rkeep_tier w w' : Rkeep w w' -> Rtier w w'.
Proof. apply rel_weaken; auto using ev_keep_tier. Qed.

Lemma Rlow_trans w1 w2 w3 : Rlow w1 w2 -> Rlow w2 w3 -> Rlow w1 w3.
Proof. intros H1 H2. etransitivity; eassumption. Qed.

Lemma Rtier_trans w1 w2 w3 : Rtier w1 w2 -> Rtier w2 w3 -> Rtier w1 w3.
Proof. intros H1 H2. etransitivity; eassumption. Qed.

Lemma Rkeep_trans w1 w2 w3 : Rkeep w1 w2 -> Rkeep w2 w3 -> Rkeep w1 w3.
Proof. intros H1 H2. etransitivity; eassumption. Qed.

Lemma shaped_trans_low w0 w1 w2 : Rlow w0 w1 -> shaped w1 w2 -> shaped w0 w2.
Proof.
  intros H [H1|(wm & z & H1 & H2)].
  - left. exact (Rlow_trans _ _ _ H H1).
  - right. exists wm, z. split; [exact (Rlow_trans _ _ _ H H1)|exact H2].
Qed.

Lemma shaped_trans_tier w0 w1 w2 :
  shaped w0 w1 -> Rkeep w1 w2 -> shaped w0 w2.
Proof.
  intros [H1|(wm & z & H1 & H2)] H.
  - left. exact (Rlow_trans _ _ _ H1 (Rkeep_low _ _ H)).
  - right. exists wm, z.
    split; [exact H1|exact (Rtier_trans _ _ _ H2 (Rkeep_tier _ _ H))].
Qed.

Lemma ev_low_log l m : ev_low (ELog l m) = true.
Proof. reflexivity. Qed.

Lemma ev_tier_log l m : ev_tier (ELog l m) = true.
Proof. reflexivity. Qed.

Lemma ev_keep_log l m : ev_keep (ELog l m) = true.
Proof. reflexivity. Qed.

Lemma cmd_publish_func_shaped E w r w' :
  cmd_publish_func E w = (r, w') ->
  shaped (with_trace (trace w ++ [EEnter "cmd_publish"]) w) w'.
Proof.
  unfold cmd_publish_func. rewrite bind_enter.
  generalize (with_trace (trace w ++ [EEnter "cmd_publish"]) w).
  intros w0 H. left.
  match type of H with
  | ?m _ = _ => assert (Hp : preserves Rlow m) by pres
  end.
  exact (Hp _ _ _ H).
Qed.

Lemma cmd_build_func_shaped E w r w' :
  cmd_build_func E w = (r, w') ->
  shaped (with_trace (trace w ++ [EEnter "cmd_build"]) w) w'.
Proof.
  unfold cmd_build_func. rewrite bind_enter.
  generalize (with_trace (trace w ++ [EEnter "cmd_build"]) w).
  intros w0 H. left.
  match type of H with
  | ?m _ = _ => assert (Hp : preserves Rlow m) by pres
  end.
  exact (Hp _ _ _ H).
Qed.

Lemma step_rel {A B : Type} (R : world -> world -> Prop) `{!PreOrder R}
    (m : M world A) (f : A -> M world B) w0 wc (r : result B) w' :
  preserves R m -> R w0 wc ->
  (m ≫= f) wc = (r, w') ->
  R w0 w' \/ exists a wn, R w0 wn /\ f a wn = (r, w').
Proof.
  intros Hm Hacc Hb.
  apply (bind_inv_rel R) in Hb; [|exact Hm].
  destruct Hb as [(e & _ & _ & H)|(a & wn & _ & H & Hf)].
  - left. etransitivity; eassumption.
  - right. exists a, wn. split; [etransitivity; eassumption|exact Hf].
Qed.

(** A step that assigns only values below the ERROR tier. *)
Ltac low_step H Racc :=
  let Racc' := fresh "Racc" in
  apply (fun Hm => step_rel Rlow _ _ _ _ _ _ Hm Racc) in H; [|solve [pres]];
  destruct H as [H|(? & ? & Racc' & H)];
  [left; exact H|clear Racc; rename Racc' into Racc].

(** A step that assigns only values of the ERROR tier. *)
Ltac tier_step H Racc :=
  let Racc' := fresh "Racc" in
  apply (fun Hm => step_rel Rtier _ _ _ _ _ _ Hm Racc) in H; [|solve [pres]];
  destruct H as [H|(? & ? & Racc' & H)];
  [|clear Racc; rename Racc' into Racc].

Lemma cmd_run_func_shaped E w r w' :
  cmd_run_func E w = (r, w') ->
  shaped (with_trace (trace w ++ [EEnter "cmd_run"]) w) w'.
Proof.
  unfold cmd_run_func. rewrite bind_enter.
  generalize (with_trace (trace w ++ [EEnter "cmd_run"]) w).
  intros w0 H. cbv zeta in H.
  assert (Racc : Rlow w0 w0) by reflexivity.
  do 11 low_step H Racc.
  rewrite bind_set_retcode in H.
  match type of Racc with Rlow _ ?wc => rename wc into wm end.
  match type of H with _ _ ?wc = _ => fold (assigned x19 wm) in H end.
  right. exists wm, x19. split; [exact Racc|].
  pose proof (fun j i => preserves_run_jobs_loop E ev_tier ev_tier_log false
                                                 j i eq_refl) as Hloop.
  match type of H with
  | ?m _ = _ => assert (Hp : preserves Rtier m) by pres
  end.
  exact (Hp _ _ _ H).
Qed.

Lemma merge_shape_trans w w1 r w' :
  Rlow w w1 -> merge_shape w1 r w' -> merge_shape w r w'.
Proof.
  intros H [H1|(wm & z & H1 & H2)].
  - left. exact (Rlow_trans _ _ _ H H1).
  - right. exists wm, z. split; [exact (Rlow_trans _ _ _ H H1)|exact H2].
Qed.

Lemma report_then_return {L : Type} d c report (l : L) w (r : result flow)
    (s' : L * world) :
  (lift (report_results (d, "merge.result") c (d, "merge.report") report)
   ≫= λ _ : (), mret Return) (l, w) = (r, s') ->
  Rkeep w s'.2
  /\ match r with
     | Ret fl => fl = Return
     | Raise e => is_PatchApplicationError e = false
     end.
Proof.
  intros H. apply bind_inv in H as [(e & H & ->)|([] & s1 & H & Hret)];
    apply lift_report_results_inv in H as (w1 & -> & H);
    apply report_results_spec in H; try discriminate.
  - destruct H as (-> & Hpae & _). split; [reflexivity|exact Hpae].
  - cbv [mret M_ret ret] in Hret. injection Hret as <- <-.
    destruct H as (Hc & Hr & Htc & _ & t1 & t2 & Ht).
    split; [|reflexivity]. cbn [snd]. split.
    + intros k _. rewrite Hc. reflexivity.
    + eexists. split; [exact Ht|]. split; [reflexivity|exact Hr].
    + exact Htc.
    + discriminate.
Qed.

(** A step over the frame that assigns only values below the ERROR tier. *)
Ltac low_frame_step H Racc :=
  apply (bind_inv_rel (on_world Rlow)) in H; [|solve [pres]];
  let e := fresh "e" in
  let R := fresh "R" in
  destruct H as [(e & -> & _ & R)|(? & [? ?] & _ & R & H)];
  [ left; exact (Rlow_trans _ _ _ Racc R)
  | let R' := fresh "Racc" in
    pose proof (Rlow_trans _ _ _ Racc R) as R'; clear Racc R;
    rename R' into Racc ].

Lemma merge_ref_loop_shape E d mbs l w r s' :
  merge_ref_loop E (d, "merge.result") (d, "merge.report") mbs (l, w) = (r, s') ->
  merge_shape w r s'.2.
Proof.
  revert l w r s'. induction mbs as [|mb mbs IH]; intros l w r s'; simpl.
  { intros [= <- <-]. left. reflexivity. }
  intros H. rewrite bind_locals, bind_call in H.
  destruct (py_getitem0 mb) as [mb0|e];
    [|injection H as <- <-; left; reflexivity].
  assert (Racc : Rlow w w) by reflexivity.
  low_frame_step H Racc. cbn [snd] in Racc.
  rewrite bind_call in H.
  destruct (ktree_merge_git_ref E (idx l) mb) as [[rc bh]|e];
    [|injection H as <- <-; left; exact Racc].
  cbn [fst snd] in H.
  rewrite bind_lift_set_retcode, !bind_set_locals in H.
  apply (merge_shape_trans _ _ _ _ Racc).
  destruct (Z.eqb_spec rc 0) as [->|Hnz]; cbn [negb] in H.
  - rewrite bind_append_report, bind_set_locals in H.
    apply IH in H. revert H. apply merge_shape_trans. split.
    + intros k _. reflexivity.
    + exists [ESetRetcode 0]. auto.
    + reflexivity.
    + discriminate.
  - right. eexists _, rc. split; [reflexivity|]. fold (assigned rc w0) in H.
    destruct (Z.eqb_spec rc SKT_ERROR) as [->|Hne]; cbn [negb] in H.
    + cbv [mret M_ret ret mbind M_bind bind] in H. injection H as <- <-.
      split; reflexivity.
    + revert H.
      change ((locals ≫= λ l0 : merge_locals,
                 lift (report_results (d, "merge.result") "false"
                                      (d, "merge.report") (report_string l0)))
              ≫= λ _ : (), mret Return)
        with (locals ≫= λ l0 : merge_locals,
                 (lift (report_results (d, "merge.result") "false"
                                      (d, "merge.report") (report_string l0))
                  ≫= λ _ : (), mret Return)).
      rewrite bind_locals. apply report_then_return.
Qed.

Lemma merge_try_shape E d l w r s' :
  merge_try E (d, "merge.result") (d, "merge.report") (l, w) = (r, s') ->
  merge_shape w r s'.2.
Proof.
  unfold merge_try. rewrite !bind_lift_cfg_get.
  destruct (truthy (dict_get "merge_ref" (cfg w))).
  - rewrite bind_set_locals, bind_call.
    destruct (py_iter _) as [mbs|e];
      [apply merge_ref_loop_shape|intros [= <- <-]; left; reflexivity].
  - intros H. left.
    assert (Hp : forall ps, preserves (on_world Rlow) (patch_loop E ps))
      by (induction ps; simpl; pres).
    assert (Hw : forall ps, preserves (on_world Rlow) (pw_loop E ps))
      by (induction ps; simpl; pres).
    match type of H with
    | ?m _ = _ => assert (Hm : preserves (on_world Rlow) m) by pres
    end.
    exact (Hm _ _ _ H).
Qed.

Lemma merge_patch_failed_low E d exc l w r s' :
  merge_patch_failed E exc (d, "merge.result") (d, "merge.report") (l, w)
  = (r, s') ->
  Rlow w s'.2.
Proof.
  intros H.
  assert (Hm : preserves (on_world Rlow)
                 (merge_patch_failed E exc (d, "merge.result")
                                     (d, "merge.report")))
    by (unfold merge_patch_failed; pres).
  exact (Hm _ _ _ H).
Qed.

Lemma cmd_merge_func_shaped E w r w' :
  cmd_merge_func E w = (r, w') ->
  shaped (with_trace (trace w ++ [EEnter "cmd_merge"]) w) w'.
Proof.
  unfold cmd_merge_func. rewrite bind_enter.
  generalize (with_trace (trace w ++ [EEnter "cmd_merge"]) w).
  intros w0 H. cbv zeta in H.
  assert (Racc : Rlow w0 w0) by reflexivity.
  do 11 low_step H Racc.
  match type of Racc with Rlow _ ?wc => rename wc into w1 end.
  rewrite bind_artifact in H.
  destruct (dict_get "output_dir" (cfg w1)) as [| | |d| | | |] eqn:Hd;
    try (injection H as <- <-; left; exact Racc).
  rewrite bind_artifact, Hd in H.
  apply with_frame_inv in H as (l' & H).
  apply (shaped_trans_low _ _ _ Racc).
  apply bind_inv in H as [(e & Htry & ->)|(fl & [l2 w2] & Htry & H)].
  - apply try_except_inv in Htry as [(a & _ & [=])|(e1 & [l3 w3] & Hb & Hh)].
    apply merge_try_shape in Hb. cbn [snd] in Hb.
    destruct (is_PatchApplicationError e1) eqn:Hpae.
    + apply merge_patch_failed_low in Hh. cbn [snd] in Hh.
      destruct Hb as [Hb|(wm & z & _ & _ & Hcon)]; [|congruence].
      left. exact (Rlow_trans _ _ _ Hb Hh).
    + destruct Hh as [_ [= <- <-]].
      destruct Hb as [Hb|(wm & z & H1 & H2 & _)]; [left; exact Hb|].
      right. exists wm, z. split; [exact H1|exact (Rkeep_tier _ _ H2)].
  - assert (Hshape : merge_shape w1 (Ret fl) w2).
    { apply try_except_inv in Htry as [(a & Hb & [= <-])|(e1 & [l3 w3] & Hb & Hh)].
      - exact (merge_try_shape _ _ _ _ _ _ Hb).
      - apply merge_try_shape in Hb. cbn [snd] in Hb.
        destruct (is_PatchApplicationError e1) eqn:Hpae;
          [|destruct Hh; discriminate].
        apply merge_patch_failed_low in Hh. cbn [snd] in Hh.
        destruct Hb as [Hb|(wm & z & _ & _ & Hcon)]; [|congruence].
        left. exact (Rlow_trans _ _ _ Hb Hh). }
    destruct fl.
    + destruct Hshape as [Hs|(wm & z & _ & _ & [=])].
      left. apply (Rlow_trans _ _ _ Hs).
      match type of H with
      | ?m _ = _ => assert (Hm : preserves (on_world Rlow) m) by pres
      end.
      exact (Hm _ _ _ H).
    + cbv [mret M_ret ret] in H. injection H as <- <- <-.
      destruct Hshape as [Hs|(wm & z & H1 & H2 & _)]; [left; exact Hs|].
      right. exists wm, z. split; [exact H1|exact (Rkeep_tier _ _ H2)].
Qed.

Lemma stage_func_shaped E st w r w' :
  stage_func E st w = (r, w') ->
  shaped (with_trace (trace w ++ [EEnter (stage_name st)]) w) w'.
Proof.
  destruct st; simpl.
  - apply cmd_merge_func_shaped.
  - apply cmd_build_func_shaped.
  - apply cmd_publish_func_shaped.
  - apply cmd_run_func_shaped.
Qed.

Lemma shaped_facts w0 w1 :
  shaped w0 w1 ->
  exists evs,
    trace w1 = (trace w0 ++ evs)%list
    /\ writes_shape (retcode_writes evs)
    /\ testcases w1 = testcases w0
    /\ ((exists z, z ∈ retcode_writes evs /\ SKT_ERROR <= z) ->
        SKT_ERROR <= retcode w1).
Proof.
  intros [[_ (evs & Ht & Hp & _) Htc _]|(wm & z & H1 & H2)].
  - exists evs. split; [exact Ht|]. split; [|split; [exact Htc|]].
    + exists (retcode_writes evs), [], []. rewrite !app_nil_r.
      split; [reflexivity|]. split; [exact (writes_low _ Hp)|].
      split; [simpl; lia|constructor].
    + intros (z & Hin & Hz). apply (writes_low_no_error _ _ Hp) in Hin. lia.
  - destruct H1 as [_ (e1 & Ht1 & Hp1 & _) Htc1 _].
    destruct H2 as [_ (e2 & Ht2 & Hp2 & Hr2) Htc2 _].
    exists (e1 ++ [ESetRetcode z] ++ e2)%list.
    split; [rewrite Ht2; simpl; rewrite Ht1, <- !app_assoc; reflexivity|].
    split; [|split; [simpl in Htc2; congruence|]].
    + exists (retcode_writes e1), [z], (retcode_writes e2).
      rewrite !retcode_writes_app. split; [reflexivity|].
      split; [exact (writes_low _ Hp1)|].
      split; [simpl; lia|exact (writes_tier _ Hp2)].
    + intros (z' & Hin & Hz). rewrite Hr2. simpl.
      apply last_write_tier; [exact Hp2|].
      rewrite !retcode_writes_app, !elem_of_app in Hin.
      destruct Hin as [Hin|[Hin|Hin]].
      * apply (writes_low_no_error _ _ Hp1) in Hin. lia.
      * simpl in Hin. apply list_elem_of_singleton in Hin as ->. left. exact Hz.
      * right. intros Hnil. rewrite Hnil in Hin. apply elem_of_nil in Hin.
        exact Hin.
Qed.

Lemma writes_shape_sticks zs : writes_shape zs -> error_sticks zs.
Proof.
  intros (lows & tl & es & -> & Hl & Ht & He). apply sticks_shape; assumption.
Qed.

Lemma writes_shape_error zs : writes_shape zs -> writes_shape (zs ++ [SKT_ERROR]).
Proof.
  intros (lows & tl & es & -> & Hl & Ht & He).
  exists lows, tl, (es ++ [SKT_ERROR])%list. rewrite <- !app_assoc.
  split; [reflexivity|]. split; [exact Hl|]. split; [exact Ht|].
  apply Forall_app. split; [exact He|]. constructor; [reflexivity|constructor].
Qed.

(** C2.  Within one execution of a wrapped stage, once a value of the ERROR
    tier has been assigned to [retcode], every later assignment of that
    execution is of the ERROR tier as well, so the outcome the stage leaves
    is of the ERROR tier and not [SKT_SUCCESS]; and the test case that the
    wrapper appends for the stage, when JUnit collection is on, carries the
    error classification and no failure. *)
Theorem error_outcome_sticks (E : env) (st : stage) (w : world)
    (r : result unit) (w' : world) :
  run_stage E st w = (r, w') ->
  exists evs,
    trace w' = (trace w ++ evs)%list
    /\ error_sticks (retcode_writes evs)
    /\ ((exists z, z ∈ retcode_writes evs /\ SKT_ERROR <= z) ->
        SKT_ERROR <= retcode w'
        /\ (truthy (dict_get "junit" (cfg w)) = true -> r = Ret tt ->
            exists tc,
              testcases w' = (testcases w ++ [tc])%list
              /\ tc_name tc = stage_name st
              /\ tc_error tc = Some (infrastructure_issue (retcode w'))
              /\ tc_failure tc = None)).
Proof.
  unfold run_stage. destruct (truthy (dict_get "junit" (cfg w))) eqn:Hj.
  - rewrite (wrapper_on _ _ _ _ Hj).
    destruct (stage_func E st (ticked w)) as [[[]|e] w1] eqn:Hf;
      apply stage_func_shaped, shaped_facts in Hf
        as (evs & Ht & Hshape & Htc & Herr).
    + intros [= <- <-].
      exists (EEnter (stage_name st) :: evs).
      split; [simpl; rewrite Ht; simpl; rewrite <- app_assoc; reflexivity|].
      split; [exact (writes_shape_sticks _ Hshape)|].
      intros Hex. specialize (Herr Hex). split; [exact Herr|].
      intros _ _.
      destruct (recorded_error E (clock E (ticks w))
                  (fresh_testcase (stage_name st)) w1 Herr)
        as (tc & H1 & H2 & H3 & H4).
      exists tc. rewrite H1, Htc. auto.
    + destruct (is_Exception e); intros [= <- <-].
      * exists (EEnter (stage_name st) :: evs
                ++ [ELog "error"
                         ("Unexpected exception caught, probably an "
                          ++ "infrastructure failure or skt bug: "
                          ++ format_exc E e);
                    ESetRetcode SKT_ERROR])%list.
        split; [simpl; rewrite Ht; simpl; rewrite <- !app_assoc; reflexivity|].
        assert (Hw : retcode_writes
                       (EEnter (stage_name st) :: evs
                        ++ [ELog "error"
                                 ("Unexpected exception caught, probably an "
                                  ++ "infrastructure failure or skt bug: "
                                  ++ format_exc E e);
                            ESetRetcode SKT_ERROR])
                     = (retcode_writes evs ++ [SKT_ERROR])%list)
          by (simpl; rewrite retcode_writes_app; reflexivity).
        rewrite Hw.
        split; [exact (writes_shape_sticks _ (writes_shape_error _ Hshape))|].
        intros _. split; [reflexivity|]. intros _ _.
        destruct (recorded_error E (clock E (ticks w))
                    (add_error_info (format_exc E e)
                                    (fresh_testcase (stage_name st)))
                    (caught E e w1)) as (tc & H1 & H2 & H3 & H4);
          [reflexivity|].
        exists tc. rewrite H1. simpl. rewrite Htc. auto.
      * exists (EEnter (stage_name st) :: evs).
        split; [rewrite Ht; simpl; rewrite <- app_assoc; reflexivity|].
        split; [exact (writes_shape_sticks _ Hshape)|].
        intros Hex. specialize (Herr Hex). split; [exact Herr|discriminate].
  - rewrite (wrapper_off _ _ _ _ Hj). intros Hf.
    apply stage_func_shaped, shaped_facts in Hf
      as (evs & Ht & Hshape & Htc & Herr).
    exists (EEnter (stage_name st) :: evs).
    split; [rewrite Ht; simpl; rewrite <- app_assoc; reflexivity|].
    split; [exact (writes_shape_sticks _ Hshape)|].
    intros Hex. specialize (Herr Hex). split; [exact Herr|discriminate].
Qed.

Lemma error_outcome_sticks_witness :
  exists evs,
    trace (run_stage env_first_dump_fails Run world_wait_junit).2
    = ([] ++ evs)%list
    /\ error_sticks (retcode_writes evs)
    /\ ((exists z, z ∈ retcode_writes evs /\ SKT_ERROR <= z) ->
        SKT_ERROR <= retcode (run_stage env_first_dump_fails Run world_wait_junit).2
        /\ (true = true ->
            (run_stage env_first_dump_fails Run world_wait_junit).1 = Ret tt ->
            exists tc,
              testcases (run_stage env_first_dump_fails Run world_wait_junit).2
              = ([] ++ [tc])%list
              /\ tc_name tc = "cmd_run"
              /\ tc_error tc
                 = Some (infrastructure_issue
                           (retcode (run_stage env_first_dump_fails Run
                                               world_wait_junit).2))
              /\ tc_failure tc = None)).
Proof.
  exact (error_outcome_sticks env_first_dump_fails Run world_wait_junit _ _
                              (surjective_pairing _)).
Defined.

(** The run of the witness: the runner answers [SKT_SUCCESS], the first job
    raises [retcode] to [SKT_ERROR], the second job succeeds and leaves it
    there. *)
Lemma second_job_keeps_error :
  retcode_writes (trace (run_stage env_first_dump_fails Run world_wait_junit).2)
  = [SKT_SUCCESS; SKT_ERROR]
  /\ retcode (run_stage env_first_dump_fails Run world_wait_junit).2 = SKT_ERROR
  /\ tc_error <$> testcases (run_stage env_first_dump_fails Run world_wait_junit).2
     = [Some (infrastructure_issue SKT_ERROR)].
Proof. repeat split; vm_compute; reflexivity. Qed.























Lemma eqb_refl_s (s : string) : String.eqb s s = true.
Proof. apply String.eqb_refl. Qed.




























